(** * OpenAIQueryGenerator (query_generators/openai.py)

    A shallow embedding of the query generator: the two completion
    invokers with their one-shot retry, the token accountant, the response
    extractor and the orchestration in [generate_query].

    Python strings are modelled as [string] (a sequence of characters;
    the separators the program splits on are ASCII).  The instance
    attributes the program mutates live in an explicit [state]; exceptions
    are values of [exn]; printing is a write-only log. *)

From Stdlib Require Import String Ascii List ZArith Lia Bool Arith DecimalString.
From Stdlib Require Import Permutation.
From Equations Require Import Equations.
Import ListNotations.
Local Open Scope string_scope.
Local Open Scope list_scope.

(** ** Exceptions *)

(** The exception classes the program distinguishes.  [OtherException]
    stands for every other subclass of [Exception], by qualified name. *)
Inductive exn_class : Type :=
| RateLimitError            (* openai.error.RateLimitError *)
| ServiceUnavailableError   (* openai.error.ServiceUnavailableError *)
| KeyError
| IndexError
| TypeError
| AttributeError
| ValueError
| UnboundLocalError
| FunctionTimedOut          (* func_timeout; derives from BaseException *)
| OtherException (name : string).

Record exn : Type := mkExn { exn_type : exn_class; exn_str : string }.

(** [except Exception] catches everything here but [FunctionTimedOut]. *)
Definition is_Exception (e : exn) : bool :=
  match exn_type e with
  | FunctionTimedOut => false
  | _ => true
  end.

(** [except (openai.error.RateLimitError, openai.error.ServiceUnavailableError)] *)
Definition is_overload (e : exn) : bool :=
  match exn_type e with
  | RateLimitError | ServiceUnavailableError => true
  | _ => false
  end.

Definition is_KeyError (e : exn) : bool :=
  match exn_type e with
  | KeyError => true
  | _ => false
  end.

Definition is_FunctionTimedOut (e : exn) : bool :=
  match exn_type e with
  | FunctionTimedOut => true
  | _ => false
  end.

Definition class_name (c : exn_class) : string :=
  match c with
  | RateLimitError => "openai.error.RateLimitError"
  | ServiceUnavailableError => "openai.error.ServiceUnavailableError"
  | KeyError => "KeyError"
  | IndexError => "IndexError"
  | TypeError => "TypeError"
  | AttributeError => "AttributeError"
  | ValueError => "ValueError"
  | UnboundLocalError => "UnboundLocalError"
  | FunctionTimedOut => "func_timeout.exceptions.FunctionTimedOut"
  | OtherException name => name
  end.

(** [str(type(e))] *)
Definition type_repr (e : exn) : string :=
  "<class '" ++ class_name (exn_type e) ++ "'>".

(** A pure computation that may raise. *)
Definition result (A : Type) : Type := (exn + A)%type.

Definition index_error : exn := mkExn IndexError "list index out of range".

(** ** Strings and lists *)

(** [s[n:]] *)
Fixpoint str_drop (n : nat) (s : string) : string :=
  match n, s with
  | S n', String _ s' => str_drop n' s'
  | _, _ => s
  end.

(** [s[:n]] *)
Fixpoint str_take (n : nat) (s : string) : string :=
  match n, s with
  | S n', String c s' => String c (str_take n' s')
  | _, _ => EmptyString
  end.

(** [s.find(sep)]: the index of the first occurrence, [None] for -1. *)
Fixpoint str_find (sep s : string) : option nat :=
  if prefix sep s then Some 0
  else match s with
       | EmptyString => None
       | String _ s' => option_map S (str_find sep s')
       end.

(** A value together with the equation that names it, to keep the result
    of a test at hand in the branches below. *)
Definition inspect {A : Type} (a : A) : {b : A | a = b} := exist _ a eq_refl.

(** The loop of [str.split(sep)] for a separator [String c sep']: cut at
    the first occurrence, skip the separator, go on with the rest. *)
Equations? split_loop (c : ascii) (sep' : string) (s : string) : list string
  by wf (String.length s) lt :=
  split_loop c sep' s with inspect (str_find (String c sep') s) := {
    | exist _ None _ => [s];
    | exist _ (Some i) Hfind =>
        str_take i s
          :: split_loop c sep' (str_drop (i + String.length (String c sep')) s) }.
Proof.
  assert (Hd : forall n t, String.length (str_drop n t) = String.length t - n).
  { induction n; destruct t; simpl; auto. }
  rewrite Hd. destruct s as [|a s]; [discriminate | cbn [String.length]; lia].
Qed.

(** [s.split(sep)]; an empty separator is a [ValueError]. *)
Definition str_split (sep s : string) : result (list string) :=
  match sep with
  | EmptyString => inl (mkExn ValueError "empty separator")
  | String c sep' => inr (split_loop c sep' s)
  end.

(** [l[i]] with Python's negative indices. *)
Definition list_getitem {A : Type} (l : list A) (i : Z) : result A :=
  let n := Z.of_nat (List.length l) in
  let j := if (i <? 0)%Z then (i + n)%Z else i in
  if ((0 <=? j) && (j <? n))%Z then
    match nth_error l (Z.to_nat j) with
    | Some x => inr x
    | None => inl index_error
    end
  else inl index_error.


Definition rbind {A B : Type} (r : result A) (f : A -> result B) : result B :=
  match r with
  | inl e => inl e
  | inr a => f a
  end.

Notation "x <~ c1 ;; c2" := (rbind c1 (fun x => c2))
  (at level 61, c1 at next level, right associativity).

(** ** Python values at the service boundary *)

(** What a completion call hands back: JSON-like data. *)
#[warnings="-register-all"]
Inductive pyval : Type :=
| PNone
| PStr (s : string)
| PInt (z : Z)
| PList (l : list pyval)
| PDict (items : list (string * pyval)).

Fixpoint assoc {A : Type} (k : string) (items : list (string * A)) : option A :=
  match items with
  | [] => None
  | (k', v) :: rest => if String.eqb k k' then Some v else assoc k rest
  end.

Definition Z_to_string (z : Z) : string := NilZero.string_of_int (Z.to_int z).

Definition not_subscriptable (ty : string) : exn :=
  mkExn TypeError ("'" ++ ty ++ "' object is not subscriptable").

(** [v[k]] for a string key [k]. *)
Definition getitem_key (v : pyval) (k : string) : result pyval :=
  match v with
  | PDict items =>
      match assoc k items with
      | Some x => inr x
      | None => inl (mkExn KeyError ("'" ++ k ++ "'"))
      end
  | PList _ => inl (mkExn TypeError "list indices must be integers or slices, not str")
  | PStr _ => inl (mkExn TypeError "string indices must be integers")
  | PNone => inl (not_subscriptable "NoneType")
  | PInt _ => inl (not_subscriptable "int")
  end.

(** [v[i]] for an integer [i]. *)
Definition getitem_idx (v : pyval) (i : Z) : result pyval :=
  match v with
  | PList l => list_getitem l i
  | PStr s =>
      match list_getitem (list_ascii_of_string s) i with
      | inr c => inr (PStr (String c EmptyString))
      | inl _ => inl (mkExn IndexError "string index out of range")
      end
  | PDict _ => inl (mkExn KeyError (Z_to_string i))
  | PNone => inl (not_subscriptable "NoneType")
  | PInt _ => inl (not_subscriptable "int")
  end.

(** [v.split(sep)]: only [str] has the method. *)
Definition py_split (v : pyval) (sep : string) : result (list string) :=
  match v with
  | PStr s => str_split sep s
  | PNone => inl (mkExn AttributeError "'NoneType' object has no attribute 'split'")
  | PInt _ => inl (mkExn AttributeError "'int' object has no attribute 'split'")
  | PList _ => inl (mkExn AttributeError "'list' object has no attribute 'split'")
  | PDict _ => inl (mkExn AttributeError "'dict' object has no attribute 'split'")
  end.

(** ** The completion service and the other collaborators *)

Inductive endpoint : Type :=
| ChatCompletion   (* openai.ChatCompletion.create *)
| Completion.      (* openai.Completion.create *)

(** A message is a dict; its items are kept in insertion order. *)
Definition message : Type := list (string * string).

(** [package]: the message list of chat mode or the prompt string of
    legacy mode. *)
Inductive payload : Type :=
| Messages (l : list message)
| Prompt (s : string).

(** The keyword arguments of a [create] call ([None]: keyword absent). *)
Record request : Type := mkRequest {
  req_model : string;
  req_messages : option payload;
  req_prompt : option payload;
  req_max_tokens : Z;
  req_temperature : Z;
  req_stop : list string;
  req_logit_bias : list (Z * Z)
}.

(** What a [create] call does: the seconds it takes, and the completion
    object it returns or the exception it raises. *)
Record response : Type := mkResponse {
  elapsed : Z;
  outcome : result pyval
}.

(** Everything the module consumes through a narrow interface: the
    completion service (a state machine over [World]), tiktoken, the
    schema pruner of [utils.pruning], the file system, and the built-ins
    [str.format] and [str]. *)
Class Env : Type := {
  World : Type;
  openai_create : endpoint -> request -> World -> response * World;
  (* tiktoken.encoding_for_model(model): raises for a model it does not
     know; the tokenizer's encode raises on a text it refuses (one that
     spells a special token) *)
  encoding_for_model : string -> result (string -> result (list Z));
  (* prune_metadata_str(question, db_name) *)
  prune_metadata_str : string -> string -> result string;
  (* template.format(user_question=.., table_metadata_string=..) *)
  str_format : string -> string -> string -> result string;
  (* open(path).read() *)
  read_file : string -> result string;
  (* str(v) for a value that is not a str *)
  py_repr : pyval -> string
}.

(** [str(v)] *)
Definition py_str `{Env} (v : pyval) : string :=
  match v with
  | PStr s => s
  | _ => py_repr v
  end.

(** ** The generator object *)

(** The attributes [__init__] sets; they are read-only afterwards. *)
Record generator : Type := mkGenerator {
  db_name : string;
  model : string;
  prompt_file : string;
  timeout : Z;
  verbose : bool
}.

(** [__init__]: [db_creds["database"]] must exist. *)
Definition init (db_creds : list (string * string)) (model prompt_file : string)
    (timeout : Z) (verbose : bool) : result generator :=
  match assoc "database" db_creds with
  | Some name => inr (mkGenerator name model prompt_file timeout verbose)
  | None => inl (mkExn KeyError "'database'")
  end.

(** The attributes [generate_query] mutates, the service's state, the
    clock [time.time()] reads, and the [create] calls made so far.
    [self_completion] is [None] while the attribute was never assigned. *)
Record state `{Env} : Type := mkState {
  self_err : string;
  self_query : string;
  self_reason : string;
  self_completion : option pyval;
  world : World;
  clock : Z;
  calls : list (endpoint * request)
}.
Arguments mkState {_} _ _ _ _ _ _ _.

(** ** Effects: state, exceptions, printed lines

    A run has an outcome, a final state and the lines it printed.
    [stopped r d] says where the run is when it is stopped from outside at
    time [d], as [func_timeout] does with its worker: the state reached
    and the lines printed by then, or [None] when the run has ended by
    [d].  Time passes in [create] and in [time_sleep] only, so a run is
    stopped in one of these: a call that has begun by [d] has reached the
    service, a call or a pause that would begin after [d] never takes
    place, and nothing that follows is run. *)

Record run `{Env} (A : Type) : Type := mkRun {
  value : result A;
  final : state;
  printed : list string;
  stopped : Z -> option (state * list string)
}.
Arguments mkRun {_ A} _ _ _ _.
Arguments value {_ A} _.
Arguments final {_ A} _.
Arguments printed {_ A} _.
Arguments stopped {_ A} _ _.

Definition M `{Env} (A : Type) : Type := state -> run A.

(** What takes no time cannot be stopped. *)
Definition instant `{Env} : Z -> option (state * list string) := fun _ => None.

(** [first] was not stopped: where [next], which printed after [out], is
    stopped. *)
Definition stopped_then `{Env} (first : option (state * list string))
    (out : list string) (next : option (state * list string))
  : option (state * list string) :=
  match first with
  | Some at_stop => Some at_stop
  | None =>
      match next with
      | Some (s, out') => Some (s, out ++ out')
      | None => None
      end
  end.

Definition ret `{Env} {A : Type} (a : A) : M A := fun s => mkRun (inr a) s [] instant.

Definition raise `{Env} {A : Type} (e : exn) : M A :=
  fun s => mkRun (inl e) s [] instant.

Definition lift `{Env} {A : Type} (r : result A) : M A := fun s => mkRun r s [] instant.

Definition bind `{Env} {A B : Type} (m : M A) (f : A -> M B) : M B :=
  fun s =>
    match m s with
    | mkRun (inl e) s1 out stop => mkRun (inl e) s1 out stop
    | mkRun (inr a) s1 out stop =>
        match f a s1 with
        | mkRun v s2 out' stop' =>
            mkRun v s2 (out ++ out') (fun d => stopped_then (stop d) out (stop' d))
        end
    end.

Notation "x <- c1 ;; c2" := (bind c1 (fun x => c2))
  (at level 61, c1 at next level, right associativity).
Notation "c1 ;; c2" := (bind c1 (fun _ => c2))
  (at level 61, right associativity).

(** [try: m  except ... as e: handler e]; a handler re-raises what no
    clause matches.  An exception raised by the handler itself is not
    handled again.  No handler runs in a worker that is stopped. *)
Definition try_except `{Env} {A : Type} (m : M A) (handler : exn -> M A) : M A :=
  fun s =>
    match m s with
    | mkRun (inr a) s1 out stop => mkRun (inr a) s1 out stop
    | mkRun (inl e) s1 out stop =>
        match handler e s1 with
        | mkRun v s2 out' stop' =>
            mkRun v s2 (out ++ out') (fun d => stopped_then (stop d) out (stop' d))
        end
    end.

Definition print `{Env} (line : string) : M unit :=
  fun s => mkRun (inr tt) s [line] instant.

(** [if self.verbose: print(line)] *)
Definition print_if `{Env} (v : bool) (line : string) : M unit :=
  if v then print line else ret tt.

Definition get `{Env} : M state := fun s => mkRun (inr s) s [] instant.

Definition put `{Env} (s' : state) : M unit := fun _ => mkRun (inr tt) s' [] instant.

Definition set_err `{Env} (x : string) : M unit :=
  s <- get ;;
  put (mkState x (self_query s) (self_reason s) (self_completion s) (world s) (clock s) (calls s)).

Definition set_query `{Env} (x : string) : M unit :=
  s <- get ;;
  put (mkState (self_err s) x (self_reason s) (self_completion s) (world s) (clock s) (calls s)).

Definition set_reason `{Env} (x : string) : M unit :=
  s <- get ;;
  put (mkState (self_err s) (self_query s) x (self_completion s) (world s) (clock s) (calls s)).

Definition set_completion `{Env} (x : pyval) : M unit :=
  s <- get ;;
  put (mkState (self_err s) (self_query s) (self_reason s) (Some x) (world s) (clock s) (calls s)).

Definition set_clock `{Env} (t : Z) (s : state) : state :=
  mkState (self_err s) (self_query s) (self_reason s) (self_completion s) (world s) t (calls s).

(** [time.time()] *)
Definition time_time `{Env} : M Z := s <- get ;; ret (clock s).

(** [time.sleep(n)]: stopped during the pause, or before it, the run is
    where it was. *)
Definition time_sleep `{Env} (n : Z) : M unit :=
  fun s =>
    mkRun (inr tt) (set_clock (clock s + n) s) []
          (fun d => if (d <? clock s + n)%Z then Some (s, []) else None).

(** [openai.<endpoint>.create] with keyword arguments [req]: the service
    answers, time passes,
    the call is recorded.  A call that would begin after the stop is not
    made; one that is under way at the stop has been made. *)
Definition create `{Env} (ep : endpoint) (req : request) : M pyval :=
  fun s =>
    let (resp, w) := openai_create ep req (world s) in
    mkRun (outcome resp)
          (mkState (self_err s) (self_query s) (self_reason s) (self_completion s)
                   w (clock s + elapsed resp) (calls s ++ [(ep, req)]))
          []
          (fun d =>
             if (d <? clock s)%Z then Some (s, [])
             else if (d <? clock s + elapsed resp)%Z
                  then Some (mkState (self_err s) (self_query s) (self_reason s)
                                     (self_completion s) w (clock s + elapsed resp)
                                     (calls s ++ [(ep, req)]), [])
                  else None).

Definition timed_out : exn := mkExn FunctionTimedOut "Function timed out".

(** [func_timeout(timeout, f, args)]: [f] runs on a worker thread that is
    started at once, and the caller waits for it for [timeout] seconds
    ([Thread.join], which takes a negative time as zero).  A worker that
    has not finished by then is stopped, and the caller gets
    [FunctionTimedOut] at that moment: what the worker did until the stop
    stays (the calls made, the lines printed), what it would have done
    later never happens. *)
Definition func_timeout `{Env} {A : Type} (timeout : Z) (f : M A) : M A :=
  fun s =>
    let deadline := (clock s + Z.max 0 timeout)%Z in
    match f s with
    | mkRun v s1 out stop =>
        if (timeout <? clock s1 - clock s)%Z
        then
          let before d := if (d <? deadline)%Z then stop d else None in
          match stop deadline with
          | Some (s_stop, out_stop) =>
              mkRun (inl timed_out) (set_clock deadline s_stop) out_stop before
          | None => mkRun (inl timed_out) (set_clock deadline s1) out before
          end
        else mkRun v s1 out stop
    end.

(** ** The completion invokers *)

(** [completion["choices"][0]["message"]["content"]] *)
Definition chat_content (completion : pyval) : result pyval :=
  choices <~ getitem_key completion "choices" ;;
  choice <~ getitem_idx choices 0 ;;
  msg <~ getitem_key choice "message" ;;
  getitem_key msg "content".

(** [completion["choices"][0]["text"]] *)
Definition completion_text (completion : pyval) : result pyval :=
  choices <~ getitem_key completion "choices" ;;
  choice <~ getitem_idx choices 0 ;;
  getitem_key choice "text".

(** [get_chat_completion(self, model, messages, max_tokens, temperature,
    stop, logit_bias)]; the defaults 600, 0, a stop list holding one fence
    and an empty bias map are filled in by the caller.  [generated_text]
    starts as the empty string and is what the last clause returns. *)
Definition get_chat_completion `{Env} (self : generator) (model : string)
    (messages : payload) (max_tokens temperature : Z) (stop : list string)
    (logit_bias : list (Z * Z)) : M pyval :=
  try_except
    (completion <- create ChatCompletion
                     (mkRequest model (Some messages) None
                                max_tokens temperature stop logit_bias) ;;
     lift (chat_content completion))
    (fun e =>
       if is_overload e then
         print_if (verbose self) "Model overloaded. Pausing for 5s before retrying..." ;;
         time_sleep 5 ;;
         completion <- create ChatCompletion
                         (mkRequest model (Some messages) None
                                    max_tokens temperature stop logit_bias) ;;
         lift (chat_content completion)
       else if is_Exception e then
         print_if (verbose self) (type_repr e ++ " " ++ exn_str e) ;;
         ret (PStr "")
       else raise e).

(** [get_nonchat_completion(self, model, prompt, max_tokens, temperature,
    stop, logit_bias)].  The retry goes to [openai.ChatCompletion.create],
    with the [prompt] keyword, as the source has it. *)
Definition get_nonchat_completion `{Env} (self : generator) (model : string)
    (prompt : payload) (max_tokens temperature : Z) (stop : list string)
    (logit_bias : list (Z * Z)) : M pyval :=
  try_except
    (completion <- create Completion
                     (mkRequest model None (Some prompt)
                                max_tokens temperature stop logit_bias) ;;
     lift (completion_text completion))
    (fun e =>
       if is_overload e then
         print_if (verbose self) "Model overloaded. Pausing for 5s before retrying..." ;;
         time_sleep 5 ;;
         completion <- create ChatCompletion
                         (mkRequest model None (Some prompt)
                                    max_tokens temperature stop logit_bias) ;;
         lift (completion_text completion)
       else if is_Exception e then
         print_if (verbose self) (type_repr e ++ " " ++ exn_str e) ;;
         ret (PStr "")
       else raise e).

(** ** The token accountant *)

Definition len {A : Type} (l : list A) : Z := Z.of_nat (List.length l).

(** The inner loop, [for _, value in message.items()]: each value adds its
    encoded length to [num_tokens]; a value the tokenizer refuses ends the
    loop with its exception. *)
Fixpoint count_values (encode : string -> result (list Z)) (items : message)
    (num_tokens : Z) : result Z :=
  match items with
  | [] => inr num_tokens
  | item :: rest =>
      tokens <~ encode (snd item) ;;
      count_values encode rest (num_tokens + len tokens)%Z
  end.

(** The outer loop, [for message in messages]. *)
Fixpoint count_messages_loop (encode : string -> result (list Z))
    (messages : list message) (num_tokens : Z) : result Z :=
  match messages with
  | [] => inr num_tokens
  | message :: rest =>
      num_tokens <~ count_values encode message num_tokens ;;
      count_messages_loop encode rest num_tokens
  end.

(** [count_tokens(model, messages, prompt)]: the two nested loops add to
    [num_tokens] one string value at a time. *)
Definition count_tokens `{Env} (model : string) (messages : list message)
    (prompt : string) : result Z :=
  encode <~ encoding_for_model model ;;
  let num_tokens := 0%Z in
  if negb (model =? "text-davinci-003") then
    count_messages_loop encode messages num_tokens
  else
    tokens <~ encode prompt ;;
    inr (len tokens).

(** ** generate_query *)

(** The local variables [prompt] and [messages]; [None] while unbound. *)
Record locals : Type := mkLocals {
  local_prompt : option string;
  local_messages : option (list message)
}.

Definition read_local {A : Type} (name : string) (v : option A) : result A :=
  match v with
  | Some x => inr x
  | None =>
      inl (mkExn UnboundLocalError
                 ("local variable '" ++ name ++ "' referenced before assignment"))
  end.

(** Lines 143-161: the prompt for the configured model. *)
Definition assemble_prompt `{Env} (self : generator) (question chat_prompt : string)
  : result locals :=
  if negb (model self =? "text-davinci-003") then
    parts <~ str_split "### Input:" chat_prompt ;;
    sys_prompt <~ list_getitem parts 0 ;;
    parts <~ str_split "### Input:" chat_prompt ;;
    after_input <~ list_getitem parts 1 ;;
    parts <~ str_split "### Response:" after_input ;;
    user_prompt <~ list_getitem parts 0 ;;
    parts <~ str_split "### Response:" chat_prompt ;;
    assistant_prompt <~ list_getitem parts 1 ;;
    table_metadata_string <~ prune_metadata_str question (db_name self) ;;
    user_prompt <~ str_format user_prompt question table_metadata_string ;;
    let messages := [] in
    let messages := messages ++ [[("role", "system"); ("content", sys_prompt)]] in
    let messages := messages ++ [[("role", "user"); ("content", user_prompt)]] in
    let messages := messages ++ [[("role", "assistant"); ("content", assistant_prompt)]] in
    inr (mkLocals None (Some messages))
  else
    table_metadata_string <~ prune_metadata_str question (db_name self) ;;
    prompt <~ str_format chat_prompt question table_metadata_string ;;
    inr (mkLocals (Some prompt) None).

(** A bound completion method, before its arguments. *)
Definition invoker `{Env} : Type :=
  string -> payload -> Z -> Z -> list string -> list (Z * Z) -> M pyval.

(** Lines 162-169: [function_to_run] and [package]. *)
Definition select_function `{Env} (self : generator) (l : locals)
  : result (invoker * payload) :=
  if model self =? "text-davinci-003" then
    prompt <~ read_local "prompt" (local_prompt l) ;;
    inr (get_nonchat_completion self, Prompt prompt)
  else
    messages <~ read_local "messages" (local_messages l) ;;
    inr (get_chat_completion self, Messages messages).

(** Line 184: [results.split(fence)[-1]] for the sql fence. *)
Definition extract_query (results : pyval) : result string :=
  parts <~ py_split results "```sql" ;;
  list_getitem parts (-1).

Definition generation_error (e : exn) : string :=
  "QUERY GENERATION ERROR: " ++ type_repr e ++ ", " ++ exn_str e.

(** Lines 171-198: the bounded call and its three outcomes.  The call
    passes five arguments, so [logit_bias] is the empty default. *)
Definition run_completion `{Env} (self : generator) (function_to_run : invoker)
    (package : payload) : M unit :=
  try_except
    (completion <- func_timeout (timeout self)
                     (function_to_run (model self) package 400%Z 0%Z ["```"] []) ;;
     set_completion completion ;;
     query <- lift (extract_query completion) ;;
     set_query query ;;
     set_reason "-")
    (fun e =>
       if is_FunctionTimedOut e then
         print_if (verbose self) "generating query timed out" ;;
         set_err "QUERY GENERATION TIMEOUT"
       else if is_Exception e then
         print_if (verbose self)
           ("Error while generating query: " ++ type_repr e ++ ", " ++ exn_str e ++ ")") ;;
         set_query "" ;;
         set_reason "" ;;
         if is_KeyError e then
           s <- get ;;
           match self_completion s with
           | Some completion =>
               set_err (generation_error e ++ ", Completion: " ++ py_str completion)
           | None =>
               raise (mkExn AttributeError
                            "'OpenAIQueryGenerator' object has no attribute 'completion'")
           end
         else set_err (generation_error e)
       else raise e).

(** Lines 200-203: the tokens of what was sent. *)
Definition tokens_of_prompt `{Env} (self : generator) (l : locals) : result Z :=
  if model self =? "text-davinci-003" then
    prompt <~ read_local "prompt" (local_prompt l) ;;
    count_tokens (model self) [] prompt
  else
    messages <~ read_local "messages" (local_messages l) ;;
    count_tokens (model self) messages "".

(** The returned dict. *)
Record query_result : Type := mkResult {
  query : string;
  reason : string;
  err : string;
  latency_seconds : Z;
  tokens_used : Z
}.

Definition generate_query `{Env} (self : generator) (question : string)
  : M query_result :=
  start_time <- time_time ;;
  set_err "" ;;
  set_query "" ;;
  set_reason "" ;;
  chat_prompt <- lift (read_file (prompt_file self)) ;;
  l <- lift (assemble_prompt self question chat_prompt) ;;
  selected <- lift (select_function self l) ;;
  run_completion self (fst selected) (snd selected) ;;
  tokens_used <- lift (tokens_of_prompt self l) ;;
  s <- get ;;
  now <- time_time ;;
  ret (mkResult (self_query s) (self_reason s) (self_err s)
                (now - start_time) tokens_used).

(** ** Vocabulary of the statements *)

(** [sep] occurs in [s]. *)
Definition occurs (sep s : string) : Prop :=
  exists a b, s = (a ++ sep ++ b)%string.

(** The encoded lengths of [values], in order; the first value the
    tokenizer refuses raises. *)
Fixpoint encoded_lengths (encode : string -> result (list Z)) (values : list string)
  : result (list Z) :=
  match values with
  | [] => inr []
  | v :: rest =>
      tokens <~ encode v ;;
      lengths <~ encoded_lengths encode rest ;;
      inr (len tokens :: lengths)
  end.

(** The sum the token accountant is specified to return in chat mode:
    the encoded length of every value of every message. *)
Definition encoded_total (encode : string -> result (list Z))
    (messages : list message) : result Z :=
  lengths <~ encoded_lengths encode (map snd (concat messages)) ;;
  inr (fold_right Z.add 0%Z lengths).

(** The tokenizer accepts [v]. *)
Definition encodes (encode : string -> result (list Z)) (v : string) : Prop :=
  exists tokens, encode v = inr tokens.

(** The encoded length of a value the tokenizer accepts (0 otherwise). *)
Definition token_length (encode : string -> result (list Z)) (v : string) : Z :=
  match encode v with
  | inr tokens => len tokens
  | inl _ => 0%Z
  end.

(** The sum of [f] over every value of every message. *)
Definition sum_values (f : string -> Z) (messages : list message) : Z :=
  fold_right Z.add 0%Z (map f (map snd (concat messages))).

(** The three messages of chat mode. *)
Definition role_message (role content : string) : message :=
  [("role", role); ("content", content)].

(** What an invocation leaves apart from the printed lines. *)
Definition silent `{Env} {A : Type} (r : run A) : result A * state :=
  (value r, final r).

Definition with_verbose (v : bool) (self : generator) : generator :=
  mkGenerator (db_name self) (model self) (prompt_file self) (timeout self) v.

(** The seconds [function_to_run] needs from state [s] on. *)
Definition invocation_time `{Env} (self : generator) (function_to_run : invoker)
    (package : payload) (s : state) : Z :=
  (clock (final (function_to_run (model self) package 400 0 ["```"] [] s)) - clock s)%Z.

(** The state [generate_query] starts the completion call from. *)
Definition reset `{Env} (s : state) : state :=
  mkState "" "" "" (self_completion s) (world s) (clock s) (calls s).

(** The instance attributes are the same in [s] and [s']. *)
Definition same_self `{Env} (s s' : state) : Prop :=
  self_err s' = self_err s /\ self_query s' = self_query s
  /\ self_reason s' = self_reason s /\ self_completion s' = self_completion s.

(** [m] leaves the instance attributes alone, also when it is stopped. *)
Definition keeps_self `{Env} {A : Type} (m : M A) : Prop :=
  forall s,
    same_self s (final (m s))
    /\ forall d s_stop out,
         stopped (m s) d = Some (s_stop, out) -> same_self s s_stop.

(** [m1] and [m2] differ at most in what they print, also when they are
    stopped. *)
Definition quiet_eq `{Env} {A : Type} (m1 m2 : M A) : Prop :=
  forall s,
    silent (m1 s) = silent (m2 s)
    /\ forall d, option_map fst (stopped (m1 s) d) = option_map fst (stopped (m2 s) d).

(** Two occurrences of [sep] cannot overlap: no proper, non-empty suffix of
    [sep] is a prefix of it. *)
Definition unbordered (sep : string) : bool :=
  forallb (fun d => negb (prefix (str_drop d sep) sep))
          (seq 1 (String.length sep - 1)).

(** The first [create] call was answered with a transient overload. *)
Definition overloaded (resp : response) : bool :=
  match outcome resp with
  | inl e => is_overload e
  | inr _ => false
  end.

(** The run of [function_to_run] as [generate_query] starts it. *)
Definition invocation `{Env} (self : generator) (function_to_run : invoker)
    (package : payload) : M pyval :=
  function_to_run (model self) package 400%Z 0%Z ["```"] [].

(** Lines 140-169 of [generate_query] in one piece: the template is read,
    the prompt assembled, the invoker selected.  Nothing here touches the
    state. *)
Definition prepare `{Env} (self : generator) (question : string)
  : result (locals * invoker * payload) :=
  chat_prompt <~ read_file (prompt_file self) ;;
  l <~ assemble_prompt self question chat_prompt ;;
  selected <~ select_function self l ;;
  inr (l, fst selected, snd selected).

(** The request [generate_query] sends for [package]. *)
Definition sent_request (self : generator) (package : payload) : request :=
  if model self =? "text-davinci-003"
  then mkRequest (model self) None (Some package) 400 0 ["```"] []
  else mkRequest (model self) (Some package) None 400 0 ["```"] [].

(** The endpoint the first call of [generate_query] goes to. *)
Definition first_endpoint (self : generator) : endpoint :=
  if model self =? "text-davinci-003" then Completion else ChatCompletion.

(** ** Concrete collaborators

    A scripted service and simple stand-ins for the other collaborators,
    to run the model on concrete inputs. *)

(** [s.replace(old, new)] for a non-empty [old]. *)
Definition str_replace (old new s : string) : string :=
  match str_split old s with
  | inr parts => String.concat new parts
  | inl _ => s
  end.

Definition simple_format (template user_question table_metadata_string : string)
  : result string :=
  inr (str_replace "{table_metadata_string}" table_metadata_string
         (str_replace "{user_question}" user_question template)).

(** One token per character. *)
Definition char_tokens (s : string) : list Z :=
  map (fun c => Z.of_nat (nat_of_ascii c)) (list_ascii_of_string s).

(** Like tiktoken, the stand-in refuses a text that spells the
    end-of-text token. *)
Definition test_encode (s : string) : result (list Z) :=
  match str_find "<|endoftext|>" s with
  | Some _ =>
      inl (mkExn ValueError
                 "Encountered text corresponding to disallowed special token '<|endoftext|>'.")
  | None => inr (char_tokens s)
  end.

(** Like tiktoken, the stand-in has an encoding for the models it knows
    and raises [KeyError] for any other. *)
Definition known_models (m : string) : result (string -> result (list Z)) :=
  if (m =? "gpt-3.5-turbo-0613") || (m =? "gpt-4-0613") || (m =? "text-davinci-003")
  then inr test_encode
  else inl (mkExn KeyError
                  ("'Could not automatically map " ++ m ++ " to a tokeniser.'")).

(** The service is driven by a script: what the [n]-th call answers. *)
Definition scripted (script : nat -> endpoint -> request -> response)
    (template : string) : Env :=
  {| World := nat;
     openai_create := fun ep req n => (script n ep req, S n);
     encoding_for_model := known_models;
     prune_metadata_str := fun _ _ => inr "table users(id, name)";
     str_format := simple_format;
     read_file := fun _ => inr template;
     py_repr := fun _ => "<object>" |}.

Definition chat_reply (content : string) : pyval :=
  PDict [("choices",
          PList [PDict [("index", PInt 0);
                        ("message", PDict [("role", PStr "assistant");
                                           ("content", PStr content)])]])].

Definition text_reply (text : string) : pyval :=
  PDict [("choices", PList [PDict [("text", PStr text); ("index", PInt 0)]])].

Definition invalid_request (what : string) : exn :=
  mkExn (OtherException "openai.error.InvalidRequestError") what.

(** A healthy service: each endpoint answers the keyword it expects. *)
Definition healthy (sql : string) (ep : endpoint) (req : request) : response :=
  match ep, req_messages req, req_prompt req with
  | ChatCompletion, Some _, _ => mkResponse 2 (inr (chat_reply sql))
  | ChatCompletion, None, _ =>
      mkResponse 1 (inl (invalid_request "'messages' is a required property"))
  | Completion, _, Some _ => mkResponse 2 (inr (text_reply sql))
  | Completion, _, None =>
      mkResponse 1 (inl (invalid_request "you must provide a prompt"))
  end.

Definition rate_limited : response :=
  mkResponse 1 (inl (mkExn RateLimitError "Rate limit reached")).

Definition api_error : exn :=
  mkExn (OtherException "openai.error.APIError") "internal server error".

Definition auth_error : exn :=
  mkExn (OtherException "openai.error.AuthenticationError") "Incorrect API key provided".

(** Overloaded on the first call, healthy afterwards. *)
Definition overloaded_once (sql : string) (n : nat) (ep : endpoint) (req : request)
  : response :=
  match n with
  | O => rate_limited
  | S _ => healthy sql ep req
  end.

(** Overloaded on the first call, failing for good on the second. *)
Definition overloaded_then_down (n : nat) (ep : endpoint) (req : request) : response :=
  match n with
  | O => rate_limited
  | S _ => mkResponse 1 (inl api_error)
  end.

Definition always_healthy (sql : string) (n : nat) := healthy sql.

Definition always_failing (e : exn) (n : nat) (ep : endpoint) (req : request)
  : response := mkResponse 1 (inl e).

(** A service that needs a minute per call. *)
Definition slow (sql : string) (n : nat) (ep : endpoint) (req : request) : response :=
  mkResponse 60 (outcome (healthy sql ep req)).

(** A service that is overloaded and needs a minute to say so. *)
Definition congested (n : nat) (ep : endpoint) (req : request) : response :=
  mkResponse 60 (outcome rate_limited).

Definition chat_template : string :=
  "Write a SQL query.### Input:Question: {user_question} Schema: {table_metadata_string}### Response:Here is the query: ```sql".

Definition legacy_template : string :=
  "Question: {user_question} Schema: {table_metadata_string} Query: ```sql".

Definition template_without_response : string :=
  "Write a SQL query.### Input:Question: {user_question} Schema: {table_metadata_string}".

Definition chat_generator : generator :=
  mkGenerator "academic" "gpt-4-0613" "prompts/prompt.md" 10 false.

Definition legacy_generator : generator :=
  mkGenerator "academic" "text-davinci-003" "prompts/prompt.md" 10 false.

Definition sample_sql : string := " SELECT count(*) FROM users;".

Definition sample_question : string := "how many users?".

Definition sample_messages : payload :=
  Messages [role_message "system" "Write a SQL query.";
            role_message "user" "Question: how many users? Schema: table users(id, name)";
            role_message "assistant" "Here is the query: ```sql"].

Definition sample_prompt : payload :=
  Prompt "Question: how many users? Schema: table users(id, name) Query: ```sql".

Definition healthy_chat_env : Env := scripted (always_healthy sample_sql) chat_template.

Definition healthy_legacy_env : Env := scripted (always_healthy sample_sql) legacy_template.

Definition overloaded_chat_env : Env := scripted (overloaded_once sample_sql) chat_template.

Definition overloaded_legacy_env : Env :=
  scripted (overloaded_once sample_sql) legacy_template.

Definition failing_retry_env : Env := scripted overloaded_then_down chat_template.

Definition unauthorized_env : Env := scripted (always_failing auth_error) chat_template.

Definition slow_env : Env := scripted (slow sample_sql) chat_template.

Definition congested_env : Env := scripted congested chat_template.

Definition broken_template_env : Env :=
  scripted (always_healthy sample_sql) template_without_response.

(** A generator that has not answered a question yet. *)
Definition fresh (E : Env) (w : @World E) : @state E :=
  mkState "" "" "" None w 0 [].

(** A service whose completions hold no choice. *)
Definition no_choices (n : nat) (ep : endpoint) (req : request) : response :=
  mkResponse 1 (inr (PDict [("choices", PList [])])).

(** A service whose chat message has no content. *)
Definition null_content (n : nat) (ep : endpoint) (req : request) : response :=
  mkResponse 1
    (inr (PDict [("choices",
                  PList [PDict [("message",
                                 PDict [("role", PStr "assistant");
                                        ("content", PNone)])]])])).

Definition no_choices_env : Env := scripted no_choices chat_template.

Definition null_content_env : Env := scripted null_content chat_template.

(** A generator for a model tiktoken has no encoding for. *)
Definition finetuned_generator : generator :=
  mkGenerator "academic" "ft-sql-academic" "prompts/prompt.md" 10 false.

(** A generator that waits seven seconds at most. *)
Definition impatient_generator : generator :=
  mkGenerator "academic" "gpt-4-0613" "prompts/prompt.md" 7 false.

(** A generator that still holds the outcome of an earlier question. *)
Definition stale (E : Env) (w : @World E) : @state E :=
  mkState "QUERY GENERATION TIMEOUT" " SELECT 1" "-" None w 0 [].

(** * Properties *)

(** ** Splitting *)

Lemma prefix_app (p s : string) :
  prefix p s = true <-> exists t, s = (p ++ t)%string.
Proof.
  revert s. induction p as [|c p IH]; intros [|d s]; simpl.
  - split; [intros _; exists ""; reflexivity | reflexivity].
  - split; [intros _; exists (String d s); reflexivity | reflexivity].
  - split; [discriminate | intros [t Ht]; discriminate].
  - destruct (Ascii.ascii_dec c d) as [->|Hne].
    + rewrite IH. split; intros [t Ht]; exists t; [now rewrite Ht | now inversion Ht].
    + split; [discriminate | intros [t Ht]; inversion Ht; congruence].
Qed.

Lemma occurs_here (sep s : string) : prefix sep s = true -> occurs sep s.
Proof.
  intros H. apply prefix_app in H. destruct H as [t ->].
  exists "", t. reflexivity.
Qed.

Lemma occurs_later (sep s : string) (c : ascii) :
  occurs sep s -> occurs sep (String c s).
Proof.
  intros (a & b & ->). exists (String c a), b. reflexivity.
Qed.

Lemma occurs_cons (sep s : string) (c : ascii) :
  occurs sep (String c s) -> prefix sep (String c s) = true \/ occurs sep s.
Proof.
  intros (a & b & H). destruct a as [|d a]; simpl in H.
  - left. apply prefix_app. exists b. exact H.
  - right. inversion H. exists a, b. reflexivity.
Qed.

(** [str_find] answers -1 exactly when the separator does not occur. *)
Lemma str_find_None (sep s : string) :
  str_find sep s = None <-> ~ occurs sep s.
Proof.
  induction s as [|c s IH]; cbn [str_find].
  - destruct (prefix sep "") eqn:Hp.
    + split; [discriminate | intros H; elim H; now apply occurs_here].
    + split; [intros _ (a & b & H) | reflexivity].
      destruct a; [|discriminate]. simpl in H.
      destruct sep; simpl in *; discriminate.
  - destruct (prefix sep (String c s)) eqn:Hp.
    + split; [discriminate | intros H; elim H; now apply occurs_here].
    + split.
      * intros Hf Hocc. apply occurs_cons in Hocc. destruct Hocc as [Hocc|Hocc].
        -- congruence.
        -- destruct (str_find sep s); [discriminate|]. now apply IH.
      * intros Hn. assert (Hs : str_find sep s = None).
        { apply IH. intros Hocc. apply Hn. now apply occurs_later. }
        now rewrite Hs.
Qed.

Lemma split_loop_absent (c : ascii) (sep' s : string) :
  str_find (String c sep') s = None -> split_loop c sep' s = [s].
Proof.
  intros H. rewrite split_loop_equation_1.
  generalize (inspect (str_find (String c sep') s)).
  intros [[i|] Hi]; [congruence | reflexivity].
Qed.

(** The split is never empty, and the separator does not occur in its
    last segment. *)
Lemma split_loop_last (c : ascii) (sep' s : string) :
  split_loop c sep' s <> []
  /\ str_find (String c sep') (last (split_loop c sep' s) "") = None.
Proof.
  apply (split_loop_elim
           (fun c sep' s l =>
              l <> [] /\ str_find (String c sep') (last l "") = None)).
  - intros c0 sep0 s0 i Hfind [Hne Hlast] _. split; [discriminate|].
    destruct (split_loop c0 sep0 _) as [|x rest] eqn:Hl; [congruence|].
    exact Hlast.
  - intros c0 sep0 s0 Hnone _. split; [discriminate | exact Hnone].
Qed.

Lemma list_getitem_last {A : Type} (l : list A) (d : A) :
  l <> [] -> list_getitem l (-1) = inr (last l d).
Proof.
  intros Hne. destruct (exists_last Hne) as (l' & a & ->).
  unfold list_getitem. rewrite last_last, length_app. simpl List.length.
  replace (-1 <? 0)%Z with true by reflexivity.
  replace (-1 + Z.of_nat (List.length l' + 1))%Z with (Z.of_nat (List.length l')) by lia.
  replace ((0 <=? Z.of_nat (List.length l'))%Z) with true by (symmetry; apply Z.leb_le; lia).
  replace ((Z.of_nat (List.length l') <? Z.of_nat (List.length l' + 1))%Z)
    with true by (symmetry; apply Z.ltb_lt; lia).
  simpl. rewrite Nat2Z.id, nth_error_app2, Nat.sub_diag by lia. reflexivity.
Qed.

Lemma list_getitem_first {A : Type} (l : list A) :
  l <> [] -> exists x, list_getitem l 0 = inr x.
Proof.
  destruct l as [|x l]; [congruence|]. intros _. exists x.
  unfold list_getitem. simpl List.length.
  replace (0 <? 0)%Z with false by reflexivity.
  replace ((0 <=? 0)%Z) with true by reflexivity.
  replace ((0 <? Z.of_nat (S (List.length l)))%Z) with true
    by (symmetry; apply Z.ltb_lt; lia).
  reflexivity.
Qed.

Lemma list_getitem_singleton {A : Type} (x : A) :
  list_getitem [x] 1 = inl index_error.
Proof. reflexivity. Qed.

(** C3, as the code has it: the segment after the last fence marker keeps
    whatever follows it, the closing fence included, so the text
    [blah ```sql SELECT 1 ```] yields [ SELECT 1 ```]; a text without the
    marker [```sql] is returned unchanged. *)
Theorem extract_query_last_segment :
  extract_query (PStr "blah ```sql SELECT 1 ```") = inr " SELECT 1 ```"
  /\ forall s : string, ~ occurs "```sql" s -> extract_query (PStr s) = inr s.
Proof.
  split; [reflexivity|].
  intros s Hs. apply str_find_None in Hs.
  unfold extract_query, py_split, str_split, rbind.
  rewrite (split_loop_absent _ _ _ Hs). reflexivity.
Qed.

(** C3 as stated fails: the extractor does not return [ SELECT 1 ] for the
    text of the example. *)
Lemma extract_query_keeps_closing_fence :
  extract_query (PStr "blah ```sql SELECT 1 ```") <> inr " SELECT 1 ".
Proof. vm_compute. discriminate. Qed.

(** C9: for every raw completion text the extractor returns a query, and
    the marker [```sql] does not occur in it. *)
Theorem extract_query_no_fence (s : string) :
  exists q, extract_query (PStr s) = inr q /\ ~ occurs "```sql" q.
Proof.
  unfold extract_query, py_split, str_split, rbind.
  destruct (split_loop_last "`" "``sql" s) as [Hne Hlast].
  exists (last (split_loop "`" "``sql" s) ""). split.
  - now apply list_getitem_last.
  - now apply str_find_None.
Qed.

Lemma extract_query_last_segment_witness :
  extract_query (PStr "SELECT 2") = inr "SELECT 2".
Proof.
  apply (proj2 extract_query_last_segment).
  apply str_find_None. reflexivity.
Defined.

(** ** Token counting *)

Section Accounting.
Context `{E : Env}.

Lemma sum_app (l1 l2 : list Z) :
  fold_right Z.add 0%Z (l1 ++ l2)
  = (fold_right Z.add 0%Z l1 + fold_right Z.add 0%Z l2)%Z.
Proof. induction l1 as [|x l1 IH]; simpl; lia. Qed.

Lemma encoded_lengths_app (encode : string -> result (list Z)) (a b : list string) :
  encoded_lengths encode (a ++ b)
  = (la <~ encoded_lengths encode a ;;
     lb <~ encoded_lengths encode b ;;
     inr (la ++ lb)).
Proof.
  induction a as [|v a IH]; cbn [app encoded_lengths rbind].
  - destruct (encoded_lengths encode b); reflexivity.
  - destruct (encode v) as [e|tokens]; cbn [rbind]; [reflexivity|].
    rewrite IH. destruct (encoded_lengths encode a) as [e|la]; cbn [rbind];
      [reflexivity|].
    destruct (encoded_lengths encode b); reflexivity.
Qed.

Lemma count_message (encode : string -> result (list Z)) (m : message) (acc : Z) :
  count_values encode m acc
  = (lengths <~ encoded_lengths encode (map snd m) ;;
     inr (acc + fold_right Z.add 0%Z lengths)%Z).
Proof.
  revert acc. induction m as [|item m IH]; intros acc;
    cbn [count_values map encoded_lengths rbind].
  - simpl. f_equal. lia.
  - destruct (encode (snd item)) as [e|tokens]; cbn [rbind]; [reflexivity|].
    rewrite IH. destruct (encoded_lengths encode (map snd m)) as [e|lengths];
      cbn [rbind]; [reflexivity|].
    simpl. f_equal. lia.
Qed.

Lemma count_messages (encode : string -> result (list Z)) (ms : list message)
    (acc : Z) :
  count_messages_loop encode ms acc
  = (lengths <~ encoded_lengths encode (map snd (concat ms)) ;;
     inr (acc + fold_right Z.add 0%Z lengths)%Z).
Proof.
  revert acc. induction ms as [|m ms IH]; intros acc;
    cbn [count_messages_loop concat].
  - simpl. f_equal. lia.
  - rewrite count_message, map_app, encoded_lengths_app.
    destruct (encoded_lengths encode (map snd m)) as [e|la]; cbn [rbind];
      [reflexivity|].
    rewrite IH.
    destruct (encoded_lengths encode (map snd (concat ms))) as [e|lb]; cbn [rbind];
      [reflexivity|].
    rewrite sum_app. f_equal. lia.
Qed.

Lemma count_tokens_sum (model : string) (messages : list message) (prompt : string) :
  count_tokens model messages prompt
  = (encode <~ encoding_for_model model ;;
     if model =? "text-davinci-003"
     then tokens <~ encode prompt ;; inr (len tokens)
     else encoded_total encode messages).
Proof.
  unfold count_tokens. destruct (encoding_for_model model) as [e|encode];
    cbn [rbind]; [reflexivity|].
  destruct (model =? "text-davinci-003"); cbn [negb]; [reflexivity|].
  rewrite count_messages. unfold encoded_total.
  destruct (encoded_lengths encode (map snd (concat messages))); reflexivity.
Qed.

Lemma encoded_lengths_inr (encode : string -> result (list Z)) (values : list string)
    (lengths : list Z) :
  encoded_lengths encode values = inr lengths
  <-> Forall (encodes encode) values /\ lengths = map (token_length encode) values.
Proof.
  revert lengths. induction values as [|v values IH]; intros lengths;
    cbn [encoded_lengths map].
  - split.
    + intros H. injection H as <-. split; [constructor | reflexivity].
    + intros [_ ->]. reflexivity.
  - unfold token_length at 1. destruct (encode v) as [e|tokens] eqn:Hv; cbn [rbind].
    + split; [discriminate|]. intros [Hall _]. inversion Hall as [|? ? [t Ht] _]; subst.
      rewrite Hv in Ht. discriminate.
    + destruct (encoded_lengths encode values) as [e|rest]; cbn [rbind].
      * split; [discriminate|]. intros [Hall _]. inversion Hall as [|? ? _ Hrest]; subst.
        pose proof (proj2 (IH (map (token_length encode) values)) (conj Hrest eq_refl)).
        discriminate.
      * destruct (proj1 (IH rest) eq_refl) as [Hrest ->]. split.
        -- intros H. injection H as <-. split; [|reflexivity].
           constructor; [exists tokens; exact Hv | exact Hrest].
        -- intros [_ ->]. reflexivity.
Qed.

Lemma encoded_total_inr (encode : string -> result (list Z)) (ms : list message)
    (n : Z) :
  encoded_total encode ms = inr n
  <-> Forall (encodes encode) (map snd (concat ms))
      /\ n = sum_values (token_length encode) ms.
Proof.
  unfold encoded_total, sum_values.
  destruct (encoded_lengths encode (map snd (concat ms))) as [e|lengths] eqn:Hl;
    cbn [rbind].
  - split; [discriminate|]. intros [Hall _].
    rewrite (proj2 (encoded_lengths_inr encode _ _) (conj Hall eq_refl)) in Hl.
    discriminate.
  - destruct (proj1 (encoded_lengths_inr encode _ _) Hl) as [Hall ->]. split.
    + intros H. injection H as <-. auto.
    + intros [_ ->]. reflexivity.
Qed.

Lemma count_tokens_chat (model : string) (messages : list message) (prompt : string)
    (n : Z) :
  (model =? "text-davinci-003") = false ->
  count_tokens model messages prompt = inr n
  <-> exists encode,
        encoding_for_model model = inr encode
        /\ Forall (encodes encode) (map snd (concat messages))
        /\ n = sum_values (token_length encode) messages.
Proof.
  intros Hm. rewrite count_tokens_sum, Hm.
  destruct (encoding_for_model model) as [e|encode]; cbn [rbind].
  - split; [discriminate|]. intros (encode & H & _). discriminate.
  - rewrite encoded_total_inr. split.
    + intros H. exists encode. auto.
    + intros (encode' & H & Hrest). injection H as <-. exact Hrest.
Qed.

(** C6: the count is a function of the model identifier and of the
    message list (chat mode) or the prompt (legacy mode) alone.  In chat
    mode it is the sum of the encoded lengths of every value of every
    message, the role tags among them; for [text-davinci-003] it is the
    encoded length of the prompt.  An exception of the tokenizer (a model
    it does not know, a text it refuses) is raised instead: in chat mode a
    count is returned exactly when the model has an encoding that accepts
    every value. *)
Theorem count_tokens_value (model : string) (messages : list message) (prompt : string) :
  count_tokens model messages prompt
  = (encode <~ encoding_for_model model ;;
     if model =? "text-davinci-003"
     then tokens <~ encode prompt ;; inr (len tokens)
     else encoded_total encode messages)
  /\ (forall prompt', (model =? "text-davinci-003") = false ->
        count_tokens model messages prompt' = count_tokens model messages prompt)
  /\ (forall messages', (model =? "text-davinci-003") = true ->
        count_tokens model messages' prompt = count_tokens model messages prompt)
  /\ (forall n, (model =? "text-davinci-003") = false ->
        count_tokens model messages prompt = inr n
        <-> exists encode,
              encoding_for_model model = inr encode
              /\ Forall (encodes encode) (map snd (concat messages))
              /\ n = sum_values (token_length encode) messages)
  /\ (forall encode sys_prompt user_prompt assistant_prompt t1 t2 t3 t4 t5 t6,
        encode "system" = inr t1 -> encode sys_prompt = inr t2 ->
        encode "user" = inr t3 -> encode user_prompt = inr t4 ->
        encode "assistant" = inr t5 -> encode assistant_prompt = inr t6 ->
        encoded_total encode
          [role_message "system" sys_prompt; role_message "user" user_prompt;
           role_message "assistant" assistant_prompt]
        = inr (len t1 + len t2 + len t3 + len t4 + len t5 + len t6)%Z).
Proof.
  repeat apply conj.
  - apply count_tokens_sum.
  - intros prompt' Hm. unfold count_tokens. rewrite Hm. reflexivity.
  - intros messages' Hm. unfold count_tokens. rewrite Hm. reflexivity.
  - intros n Hm. now apply count_tokens_chat.
  - intros encode sys_prompt user_prompt assistant_prompt t1 t2 t3 t4 t5 t6
           H1 H2 H3 H4 H5 H6.
    unfold encoded_total. simpl. rewrite H1, H2, H3, H4, H5, H6. simpl.
    f_equal. lia.
Qed.

End Accounting.

(** ** The orchestration *)

Ltac run_monad :=
  cbv [bind ret lift raise get put set_err set_query set_reason set_completion
       time_time time_sleep print_if print try_except silent set_clock reset];
  cbn [value final printed stopped self_err self_query self_reason self_completion
       world clock calls fst snd].

Section Orchestration.
Context `{E : Env}.

(** Once the prompt is assembled, [generate_query] is the bounded call
    followed by the token count. *)
Lemma generate_query_run (self : generator) (question : string) (s : state)
    (chat_prompt : string) (l : locals) (f : invoker) (pkg : payload) :
  read_file (prompt_file self) = inr chat_prompt ->
  assemble_prompt self question chat_prompt = inr l ->
  select_function self l = inr (f, pkg) ->
  silent (generate_query self question s)
  = (match value (run_completion self f pkg (reset s)) with
     | inl e => inl e
     | inr _ =>
         match tokens_of_prompt self l with
         | inl e => inl e
         | inr n =>
             let s' := final (run_completion self f pkg (reset s)) in
             inr (mkResult (self_query s') (self_reason s') (self_err s')
                           (clock s' - clock s) n)
         end
     end,
     final (run_completion self f pkg (reset s))).
Proof.
  intros Hread Hasm Hsel. unfold generate_query. run_monad.
  rewrite Hread, Hasm, Hsel. cbn [fst snd].
  destruct (run_completion self f pkg _) as [[e|[]] s' out]; cbn [value final printed].
  - reflexivity.
  - destruct (tokens_of_prompt self l) as [e|n]; reflexivity.
Qed.

Lemma same_self_refl (s : state) : same_self s s.
Proof. repeat split. Qed.

Lemma same_self_trans (s1 s2 s3 : state) :
  same_self s1 s2 -> same_self s2 s3 -> same_self s1 s3.
Proof. unfold same_self. intuition congruence. Qed.

Lemma keeps_instant {A : Type} (v : result A) (out : list string) (s : state) :
  same_self s (final (mkRun v s out instant))
  /\ forall d s_stop out',
       stopped (mkRun v s out instant) d = Some (s_stop, out') -> same_self s s_stop.
Proof. split; [apply same_self_refl | discriminate]. Qed.

Lemma keeps_lift {A : Type} (r : result A) : keeps_self (lift r).
Proof. intros s. apply keeps_instant. Qed.

Lemma keeps_ret {A : Type} (a : A) : keeps_self (ret a).
Proof. intros s. apply keeps_instant. Qed.

Lemma keeps_raise {A : Type} (e : exn) : keeps_self (@raise _ A e).
Proof. intros s. apply keeps_instant. Qed.

Lemma keeps_print_if (v : bool) (line : string) : keeps_self (print_if v line).
Proof. intros s. destruct v; apply keeps_instant. Qed.

Lemma keeps_sleep (n : Z) : keeps_self (time_sleep n).
Proof.
  intros s. split; [repeat split|]. unfold time_sleep. cbn [stopped].
  intros d s_stop out. destruct (d <? clock s + n)%Z; [|discriminate].
  intros H. injection H as <- _. apply same_self_refl.
Qed.

Lemma keeps_create (ep : endpoint) (req : request) : keeps_self (create ep req).
Proof.
  intros s. unfold create. destruct (openai_create ep req (world s)) as [resp w].
  split; [repeat split|]. cbn [stopped]. intros d s_stop out.
  destruct (d <? clock s)%Z; [|destruct (d <? clock s + elapsed resp)%Z];
    [| |discriminate]; intros H; injection H as <- _; repeat split.
Qed.

Lemma keeps_stopped_then (s s1 : state) (first next : option (state * list string))
    (out : list string) :
  (forall s_stop out', first = Some (s_stop, out') -> same_self s s_stop) ->
  same_self s s1 ->
  (forall s_stop out', next = Some (s_stop, out') -> same_self s1 s_stop) ->
  forall s_stop out',
    stopped_then first out next = Some (s_stop, out') -> same_self s s_stop.
Proof.
  intros Hfirst Hs1 Hnext s_stop out'. unfold stopped_then.
  destruct first as [[s0 o0]|].
  - intros H. injection H as <- _. now apply (Hfirst s0 o0).
  - destruct next as [[s0 o0]|]; [|discriminate].
    intros H. injection H as <- _.
    eapply same_self_trans; [exact Hs1 | now apply (Hnext s0 o0)].
Qed.

Lemma keeps_bind {A B : Type} (m : M A) (f : A -> M B) :
  keeps_self m -> (forall a, keeps_self (f a)) -> keeps_self (bind m f).
Proof.
  intros Hm Hf s. unfold bind. destruct (Hm s) as [Hfin Hstop].
  destruct (m s) as [[e|a] s1 o stop]; cbn [value final printed stopped] in *;
    [split; assumption|].
  destruct (Hf a s1) as [Hfin' Hstop'].
  destruct (f a s1) as [v s2 o' stop']; cbn [final stopped] in *. split.
  - eapply same_self_trans; eassumption.
  - intros d. exact (keeps_stopped_then s s1 _ _ _ (Hstop d) Hfin (Hstop' d)).
Qed.

Lemma keeps_try {A : Type} (m : M A) (handler : exn -> M A) :
  keeps_self m -> (forall e, keeps_self (handler e)) ->
  keeps_self (try_except m handler).
Proof.
  intros Hm Hh s. unfold try_except. destruct (Hm s) as [Hfin Hstop].
  destruct (m s) as [[e|a] s1 o stop]; cbn [value final printed stopped] in *;
    [|split; assumption].
  destruct (Hh e s1) as [Hfin' Hstop'].
  destruct (handler e s1) as [v s2 o' stop']; cbn [final stopped] in *. split.
  - eapply same_self_trans; eassumption.
  - intros d. exact (keeps_stopped_then s s1 _ _ _ (Hstop d) Hfin (Hstop' d)).
Qed.

Ltac keeps :=
  repeat first
    [ apply keeps_lift | apply keeps_ret | apply keeps_raise
    | apply keeps_print_if | apply keeps_sleep | apply keeps_create
    | apply keeps_bind; [|intros ?; cbv beta]
    | apply keeps_try; [|intros ?; cbv beta]
    | match goal with |- keeps_self (if ?b then _ else _) => destruct b end ].

Lemma keeps_get_chat_completion (self : generator) (model : string) (messages : payload)
    (max_tokens temperature : Z) (stop : list string) (logit_bias : list (Z * Z)) :
  keeps_self (get_chat_completion self model messages max_tokens temperature stop logit_bias).
Proof. unfold get_chat_completion. keeps. Qed.

Lemma keeps_get_nonchat_completion (self : generator) (model : string) (prompt : payload)
    (max_tokens temperature : Z) (stop : list string) (logit_bias : list (Z * Z)) :
  keeps_self (get_nonchat_completion self model prompt max_tokens temperature stop logit_bias).
Proof. unfold get_nonchat_completion. keeps. Qed.

(** What [select_function] hands out is one of the two invokers. *)
Lemma select_function_cases (self : generator) (l : locals) (f : invoker) (pkg : payload) :
  select_function self l = inr (f, pkg) ->
  (model self = "text-davinci-003" /\ f = get_nonchat_completion self
   /\ exists p, local_prompt l = Some p /\ pkg = Prompt p)
  \/ (model self <> "text-davinci-003" /\ f = get_chat_completion self
      /\ exists ms, local_messages l = Some ms /\ pkg = Messages ms).
Proof.
  unfold select_function. destruct (String.eqb_spec (model self) "text-davinci-003") as [Hm|Hm].
  - destruct (local_prompt l) as [p|]; simpl; [|discriminate].
    intros H. inversion H. left. eauto.
  - destruct (local_messages l) as [ms|]; simpl; [|discriminate].
    intros H. inversion H. right. eauto.
Qed.

Lemma keeps_selected (self : generator) (l : locals) (f : invoker) (pkg : payload) :
  select_function self l = inr (f, pkg) ->
  forall model p max_tokens temperature stop logit_bias,
    keeps_self (f model p max_tokens temperature stop logit_bias).
Proof.
  intros H. apply select_function_cases in H.
  destruct H as [(_ & -> & _)|(_ & -> & _)]; intros.
  - apply keeps_get_nonchat_completion.
  - apply keeps_get_chat_completion.
Qed.

Lemma generation_error_nonempty (e : exn) (rest : string) :
  (generation_error e ++ rest)%string <> "".
Proof. unfold generation_error. simpl. discriminate. Qed.

Lemma generation_error_nonempty' (e : exn) : generation_error e <> "".
Proof. unfold generation_error. simpl. discriminate. Qed.

(** The bounded call, from a state whose scratch attributes are reset:
    when it returns, either the error is set and the query is empty, or no
    error is set and the reason is the placeholder. *)
Lemma run_completion_outcome (self : generator) (f : invoker) (pkg : payload) (s : state) :
  keeps_self (f (model self) pkg 400%Z 0%Z ["```"] []) ->
  self_err s = "" -> self_query s = "" -> self_reason s = "" ->
  value (run_completion self f pkg s) = inr tt ->
  let s' := final (run_completion self f pkg s) in
  (self_err s' <> "" /\ self_query s' = "" /\ self_reason s' = "")
  \/ (self_err s' = "" /\ self_reason s' = "-"
      /\ exists text, self_completion s' = Some text
                      /\ extract_query text = inr (self_query s')).
Proof.
  intros Hkeep He Hq Hr. unfold run_completion, func_timeout. run_monad.
  destruct (Hkeep s) as [(Ke & Kq & Kr & Kc) Kstop].
  destruct (f (model self) pkg 400%Z 0%Z ["```"] [] s) as [v s1 o stop].
  cbn [value final printed stopped] in *.
  destruct (verbose self); destruct (timeout self <? clock s1 - clock s)%Z.
  1, 3: destruct (stop _) as [[s_stop o_stop]|] eqn:Hstop;
    [destruct (Kstop _ _ _ Hstop) as (_ & Kq' & Kr' & _)|];
    cbn; intros _; left; split; [discriminate | split; congruence
                                | discriminate | split; congruence].
  all: destruct v as [e|text].
  1, 3: destruct e as [[] msg]; cbn -[generation_error];
    destruct (self_completion s1); cbn -[generation_error];
    intros Hv; try discriminate Hv;
    left; (split; [|split; congruence]);
    first [apply generation_error_nonempty | apply generation_error_nonempty'
          | discriminate].
  all: destruct (extract_query text) as [e|q] eqn:Hx.
  1, 3: destruct e as [[] msg]; cbn -[generation_error]; intros Hv;
    left; (split; [|split; congruence]);
    first [apply generation_error_nonempty | apply generation_error_nonempty'
          | discriminate].
  all: cbn; intros _; right; split; [congruence|]; split; [reflexivity|];
    exists text; split; [reflexivity | exact Hx].
Qed.

(** The bounded call when the invocation is late. *)
Lemma run_completion_timed_out (self : generator) (f : invoker) (pkg : payload)
    (s : state) :
  keeps_self (f (model self) pkg 400%Z 0%Z ["```"] []) ->
  (timeout self < invocation_time self f pkg s)%Z ->
  let r := run_completion self f pkg s in
  value r = inr tt /\ self_err (final r) = "QUERY GENERATION TIMEOUT"
  /\ self_query (final r) = self_query s /\ self_reason (final r) = self_reason s.
Proof.
  intros Hkeep. unfold invocation_time, run_completion, func_timeout. run_monad.
  destruct (Hkeep s) as [(_ & Kq & Kr & _) Kstop].
  destruct (f (model self) pkg 400%Z 0%Z ["```"] [] s) as [v s1 o stop].
  cbn [final stopped] in *. intros Hlate. apply Z.ltb_lt in Hlate. rewrite Hlate.
  destruct (stop _) as [[s_stop o_stop]|] eqn:Hstop;
    [destruct (Kstop _ _ _ Hstop) as (_ & Kq' & Kr' & _)|];
    destruct (verbose self); cbn; auto.
Qed.

(** C5, as the code has it: when the completion invocation needs more
    than the configured [timeout] and the token count that follows the try
    block succeeds, [generate_query] returns a result whose [err] is
    [QUERY GENERATION TIMEOUT] and whose [query] and [reason] are empty;
    when that count raises (tiktoken does not know the model, or refuses
    the prompt), [generate_query] raises the same exception. *)
Theorem timeout_result (self : generator) (question : string) (s : state)
    (chat_prompt : string) (l : locals) (f : invoker) (pkg : payload) :
  read_file (prompt_file self) = inr chat_prompt ->
  assemble_prompt self question chat_prompt = inr l ->
  select_function self l = inr (f, pkg) ->
  (timeout self < invocation_time self f pkg (reset s))%Z ->
  (forall n, tokens_of_prompt self l = inr n ->
     exists r, value (generate_query self question s) = inr r
               /\ err r = "QUERY GENERATION TIMEOUT" /\ query r = ""
               /\ reason r = "" /\ tokens_used r = n)
  /\ (forall e, tokens_of_prompt self l = inl e ->
        value (generate_query self question s) = inl e).
Proof.
  intros Hread Hasm Hsel Hlate.
  pose proof (generate_query_run self question s chat_prompt l f pkg Hread Hasm Hsel) as Hrun.
  destruct (run_completion_timed_out self f pkg (reset s)
              (keeps_selected self l f pkg Hsel (model self) pkg 400%Z 0%Z ["```"] [])
              Hlate) as (Hv & He & Hq & Hr).
  rewrite Hv in Hrun. unfold silent in Hrun. injection Hrun as Hval _.
  split.
  - intros n Hn. rewrite Hn in Hval.
    eexists. split; [exact Hval|]. cbn [err query reason tokens_used].
    rewrite He, Hq, Hr. auto.
  - intros e Hn. rewrite Hn in Hval. exact Hval.
Qed.

(** A call that returns got its prompt assembled. *)
Lemma generate_query_prepared (self : generator) (question : string) (s : state)
    (r : query_result) :
  value (generate_query self question s) = inr r ->
  exists chat_prompt l f pkg,
    read_file (prompt_file self) = inr chat_prompt
    /\ assemble_prompt self question chat_prompt = inr l
    /\ select_function self l = inr (f, pkg).
Proof.
  intros Hret.
  destruct (read_file (prompt_file self)) as [e|chat_prompt] eqn:Hread.
  { revert Hret. unfold generate_query. run_monad. rewrite Hread. discriminate. }
  destruct (assemble_prompt self question chat_prompt) as [e|l] eqn:Hasm.
  { revert Hret. unfold generate_query. run_monad. rewrite Hread, Hasm. discriminate. }
  destruct (select_function self l) as [e|[f pkg]] eqn:Hsel.
  { revert Hret. unfold generate_query. run_monad. rewrite Hread, Hasm, Hsel.
    discriminate. }
  exists chat_prompt, l, f, pkg. auto.
Qed.

(** C4, as the code has it: on every path on which [generate_query]
    returns, [query] and [err] are never both non-empty.  Either [err] is
    set and [query] and [reason] are empty (timeout and error paths), or
    [err] is empty, [reason] is the placeholder and [query] is the segment
    extracted from the invoker's text, which may itself be empty. *)
Theorem query_or_error (self : generator) (question : string) (s : state)
    (r : query_result) :
  value (generate_query self question s) = inr r ->
  (err r <> "" /\ query r = "" /\ reason r = "")
  \/ (err r = "" /\ reason r = "-"
      /\ exists text,
           self_completion (final (generate_query self question s)) = Some text
           /\ extract_query text = inr (query r)).
Proof.
  intros Hret.
  destruct (generate_query_prepared self question s r Hret)
    as (chat_prompt & l & f & pkg & Hread & Hasm & Hsel).
  pose proof (generate_query_run self question s chat_prompt l f pkg Hread Hasm Hsel) as Hrun.
  unfold silent in Hrun. injection Hrun as Hval Hfin. rewrite Hret in Hval.
  rewrite Hfin.
  destruct (value (run_completion self f pkg (reset s))) as [e|[]] eqn:Hv;
    [discriminate|].
  destruct (tokens_of_prompt self l) as [e|n]; [discriminate|].
  injection Hval as ->. cbn [err query reason].
  apply run_completion_outcome; auto.
  apply (keeps_selected self l f pkg Hsel).
Qed.

(** ** Prompt assembly and mode selection *)

Lemma assemble_without_response (self : generator) (question chat_prompt : string) :
  model self <> "text-davinci-003" ->
  ~ occurs "### Response:" chat_prompt ->
  exists e, assemble_prompt self question chat_prompt = inl e
            /\ exn_type e = IndexError.
Proof.
  intros Hm Habsent. apply String.eqb_neq in Hm. apply str_find_None in Habsent.
  unfold assemble_prompt. rewrite Hm. cbv [negb str_split]. cbn [rbind].
  destruct (list_getitem_first (split_loop "#" "## Input:" chat_prompt))
    as [sys_prompt ->]; [apply split_loop_last|].
  cbn [rbind].
  destruct (list_getitem (split_loop "#" "## Input:" chat_prompt) 1)
    as [e|after_input] eqn:Hafter; cbn [rbind].
  - exists e. split; [reflexivity|].
    revert Hafter. unfold list_getitem.
    repeat match goal with |- context [if ?b then _ else _] => destruct b end;
      try destruct (nth_error _ _); intros H; inversion H; reflexivity.
  - destruct (list_getitem_first (split_loop "#" "## Response:" after_input))
      as [user_prompt ->]; [apply split_loop_last|].
    cbn [rbind]. rewrite (split_loop_absent _ _ _ Habsent).
    rewrite list_getitem_singleton. cbn [rbind]. exists index_error. auto.
Qed.

(** C7: in chat mode, a template without the response-section delimiter
    makes [generate_query] raise the index fault of the split, and no
    completion call is made: the list of calls and the service are as they
    were. *)
Theorem missing_response_delimiter (self : generator) (question : string)
    (s : state) (chat_prompt : string) :
  model self <> "text-davinci-003" ->
  read_file (prompt_file self) = inr chat_prompt ->
  ~ occurs "### Response:" chat_prompt ->
  exists e, value (generate_query self question s) = inl e
            /\ exn_type e = IndexError
            /\ calls (final (generate_query self question s)) = calls s
            /\ world (final (generate_query self question s)) = world s.
Proof.
  intros Hm Hread Habsent.
  destruct (assemble_without_response self question chat_prompt Hm Habsent)
    as (e & Hasm & He).
  exists e. unfold generate_query. run_monad. rewrite Hread, Hasm.
  cbn [value final calls world]. auto.
Qed.

(** C8: the model identifier alone selects the mode.  For
    [text-davinci-003] the prompt is one string and [function_to_run] is
    [get_nonchat_completion]; for every other identifier the prompt is
    three messages tagged system, user and assistant and [function_to_run]
    is [get_chat_completion]. *)
Theorem mode_selection (self : generator) (question chat_prompt : string) (l : locals) :
  assemble_prompt self question chat_prompt = inr l ->
  (model self = "text-davinci-003"
   /\ exists prompt,
        l = mkLocals (Some prompt) None
        /\ select_function self l = inr (get_nonchat_completion self, Prompt prompt))
  \/ (model self <> "text-davinci-003"
      /\ exists sys_prompt user_prompt assistant_prompt,
           let messages :=
             [role_message "system" sys_prompt; role_message "user" user_prompt;
              role_message "assistant" assistant_prompt] in
           l = mkLocals None (Some messages)
           /\ select_function self l = inr (get_chat_completion self, Messages messages)).
Proof.
  unfold assemble_prompt, select_function.
  destruct (String.eqb_spec (model self) "text-davinci-003") as [Hm|Hm];
    cbv [negb str_split].
  - destruct (prune_metadata_str question (db_name self)) as [e|metadata];
      cbn [rbind]; [discriminate|].
    destruct (str_format chat_prompt question metadata) as [e|prompt];
      cbn [rbind]; [discriminate|].
    intros H. injection H as <-. left. split; [exact Hm|].
    exists prompt. split; reflexivity.
  - repeat match goal with
           | |- context [rbind ?x _] =>
               destruct x; cbn [rbind]; [discriminate|]
           end.
    cbn [app]. intros H. injection H as <-. right. split; [exact Hm|].
    do 3 eexists. cbn zeta. split; reflexivity.
Qed.

(** ** Verbosity *)

Lemma quiet_refl {A : Type} (m : M A) : quiet_eq m m.
Proof. intros s. split; reflexivity. Qed.

Lemma quiet_print_if (v1 v2 : bool) (line1 line2 : string) :
  quiet_eq (print_if v1 line1) (print_if v2 line2).
Proof. intros s. destruct v1, v2; split; reflexivity. Qed.

Lemma quiet_stopped_then (first1 first2 next1 next2 : option (state * list string))
    (out1 out2 : list string) :
  option_map fst first1 = option_map fst first2 ->
  option_map fst next1 = option_map fst next2 ->
  option_map fst (stopped_then first1 out1 next1)
  = option_map fst (stopped_then first2 out2 next2).
Proof.
  unfold stopped_then.
  destruct first1 as [[s1 o1]|], first2 as [[s2 o2]|]; cbn [option_map fst];
    try discriminate; [auto|].
  destruct next1 as [[s1 o1]|], next2 as [[s2 o2]|]; cbn [option_map fst];
    try discriminate; auto.
Qed.

Lemma quiet_bind {A B : Type} (m1 m2 : M A) (f1 f2 : A -> M B) :
  quiet_eq m1 m2 -> (forall a, quiet_eq (f1 a) (f2 a)) ->
  quiet_eq (bind m1 f1) (bind m2 f2).
Proof.
  intros Hm Hf s. unfold bind. destruct (Hm s) as [Hsil Hstop]. unfold silent in *.
  destruct (m1 s) as [v1 s1 o1 stop1], (m2 s) as [v2 s2 o2 stop2].
  cbn [value final stopped] in *.
  injection Hsil as -> ->. destruct v2 as [e|a]; [split; [reflexivity | exact Hstop]|].
  destruct (Hf a s2) as [Hsil' Hstop']. unfold silent in Hsil'.
  destruct (f1 a s2), (f2 a s2). cbn [value final stopped] in *.
  split; [exact Hsil'|]. intros d. now apply quiet_stopped_then.
Qed.

Lemma quiet_try {A : Type} (m1 m2 : M A) (h1 h2 : exn -> M A) :
  quiet_eq m1 m2 -> (forall e, quiet_eq (h1 e) (h2 e)) ->
  quiet_eq (try_except m1 h1) (try_except m2 h2).
Proof.
  intros Hm Hh s. unfold try_except. destruct (Hm s) as [Hsil Hstop].
  unfold silent in *.
  destruct (m1 s) as [v1 s1 o1 stop1], (m2 s) as [v2 s2 o2 stop2].
  cbn [value final stopped] in *.
  injection Hsil as -> ->. destruct v2 as [e|a]; [|split; [reflexivity | exact Hstop]].
  destruct (Hh e s2) as [Hsil' Hstop']. unfold silent in Hsil'.
  destruct (h1 e s2), (h2 e s2). cbn [value final stopped] in *.
  split; [exact Hsil'|]. intros d. now apply quiet_stopped_then.
Qed.

Lemma quiet_func_timeout {A : Type} (t : Z) (f1 f2 : M A) :
  quiet_eq f1 f2 -> quiet_eq (func_timeout t f1) (func_timeout t f2).
Proof.
  intros Hf s. unfold func_timeout. destruct (Hf s) as [Hsil Hstop].
  unfold silent in *.
  destruct (f1 s) as [v1 s1 o1 stop1], (f2 s) as [v2 s2 o2 stop2].
  cbn [value final stopped] in *.
  injection Hsil as -> ->.
  destruct (t <? clock s2 - clock s)%Z; [|split; [reflexivity | exact Hstop]].
  pose proof (Hstop (clock s + Z.max 0 t)%Z) as Hnow.
  destruct (stop1 _) as [[s_stop1 o_stop1]|], (stop2 _) as [[s_stop2 o_stop2]|];
    cbn [option_map fst] in Hnow; try discriminate;
    try (injection Hnow as ->);
    (split; [reflexivity|]; cbn [stopped]; intros d;
     destruct (d <? _)%Z; [apply Hstop | reflexivity]).
Qed.

Lemma quiet_bind_lift {A B : Type} (r1 r2 : result A) (f1 f2 : A -> M B) :
  match r1, r2 with
  | inl e1, inl e2 => e1 = e2
  | inr a1, inr a2 => quiet_eq (f1 a1) (f2 a2)
  | _, _ => False
  end ->
  quiet_eq (bind (lift r1) f1) (bind (lift r2) f2).
Proof.
  intros H s. unfold bind, lift.
  destruct r1 as [e1|a1], r2 as [e2|a2]; try contradiction.
  - subst. split; reflexivity.
  - destruct (H s) as [Hsil Hstop]. unfold silent in *.
    destruct (f1 a1 s), (f2 a2 s). cbn [value final stopped] in *.
    split; [exact Hsil|]. intros d. now apply quiet_stopped_then.
Qed.

Ltac quiet :=
  repeat first
    [ apply quiet_refl
    | apply quiet_print_if
    | apply quiet_func_timeout
    | apply quiet_bind; [|intros ?; cbv beta]
    | apply quiet_try; [|intros ?; cbv beta]
    | match goal with
      | |- quiet_eq (if ?b then _ else _) (if ?b then _ else _) => destruct b
      | |- quiet_eq (match ?x with Some _ => _ | None => _ end)
                    (match ?x with Some _ => _ | None => _ end) => destruct x
      end ].

Lemma quiet_get_chat_completion (self : generator) (b1 b2 : bool) (model : string)
    (messages : payload) (max_tokens temperature : Z) (stop : list string)
    (logit_bias : list (Z * Z)) :
  quiet_eq
    (get_chat_completion (with_verbose b1 self) model messages max_tokens
                         temperature stop logit_bias)
    (get_chat_completion (with_verbose b2 self) model messages max_tokens
                         temperature stop logit_bias).
Proof. unfold get_chat_completion. cbn [with_verbose verbose]. quiet. Qed.

Lemma quiet_get_nonchat_completion (self : generator) (b1 b2 : bool) (model : string)
    (prompt : payload) (max_tokens temperature : Z) (stop : list string)
    (logit_bias : list (Z * Z)) :
  quiet_eq
    (get_nonchat_completion (with_verbose b1 self) model prompt max_tokens
                            temperature stop logit_bias)
    (get_nonchat_completion (with_verbose b2 self) model prompt max_tokens
                            temperature stop logit_bias).
Proof. unfold get_nonchat_completion. cbn [with_verbose verbose]. quiet. Qed.

Lemma quiet_run_completion (self : generator) (b1 b2 : bool) (f1 f2 : invoker)
    (pkg : payload) :
  quiet_eq (f1 (model self) pkg 400%Z 0%Z ["```"] [])
           (f2 (model self) pkg 400%Z 0%Z ["```"] []) ->
  quiet_eq (run_completion (with_verbose b1 self) f1 pkg)
           (run_completion (with_verbose b2 self) f2 pkg).
Proof.
  intros Hf. unfold run_completion. cbn [with_verbose verbose model timeout].
  apply quiet_try.
  - apply quiet_bind; [apply quiet_func_timeout; exact Hf | intros; apply quiet_refl].
  - intros e. quiet.
Qed.

Lemma select_function_verbose (self : generator) (b : bool) (l : locals) :
  select_function (with_verbose b self) l
  = match select_function self l with
    | inl e => inl e
    | inr (_, pkg) =>
        inr (if model self =? "text-davinci-003"
             then get_nonchat_completion (with_verbose b self)
             else get_chat_completion (with_verbose b self), pkg)
    end.
Proof.
  unfold select_function. cbn [with_verbose model].
  destruct (model self =? "text-davinci-003").
  - destruct (local_prompt l); reflexivity.
  - destruct (local_messages l); reflexivity.
Qed.

(** C10: the verbosity flag changes nothing but what is printed.  With
    the flag on or off, from the same state and against the same service,
    both invokers return the same text (or raise the same exception) and
    [generate_query] returns the same result, and they leave the same
    state behind. *)
Theorem verbose_only_prints (self : generator) (s : state) :
  (forall question,
      silent (generate_query (with_verbose true self) question s)
      = silent (generate_query (with_verbose false self) question s))
  /\ (forall model messages max_tokens temperature stop logit_bias,
         silent (get_chat_completion (with_verbose true self) model messages
                                     max_tokens temperature stop logit_bias s)
         = silent (get_chat_completion (with_verbose false self) model messages
                                       max_tokens temperature stop logit_bias s))
  /\ (forall model prompt max_tokens temperature stop logit_bias,
         silent (get_nonchat_completion (with_verbose true self) model prompt
                                        max_tokens temperature stop logit_bias s)
         = silent (get_nonchat_completion (with_verbose false self) model prompt
                                          max_tokens temperature stop logit_bias s)).
Proof.
  split; [|split; intros; [apply quiet_get_chat_completion
                          | apply quiet_get_nonchat_completion]].
  intros question.
  enough (H : quiet_eq (generate_query (with_verbose true self) question)
                       (generate_query (with_verbose false self) question))
    by apply H.
  unfold generate_query. cbn [with_verbose prompt_file].
  do 5 (apply quiet_bind; [apply quiet_refl | intros ?]).
  change (assemble_prompt (with_verbose true self) question a3)
    with (assemble_prompt self question a3).
  change (assemble_prompt (with_verbose false self) question a3)
    with (assemble_prompt self question a3).
  apply quiet_bind; [apply quiet_refl | intros l].
  rewrite !select_function_verbose.
  change (tokens_of_prompt (with_verbose true self) l)
    with (tokens_of_prompt self l).
  change (tokens_of_prompt (with_verbose false self) l)
    with (tokens_of_prompt self l).
  apply quiet_bind_lift.
  destruct (select_function self l) as [e|[f pkg]]; [reflexivity|]. cbn [fst snd].
  apply quiet_bind; [|intros; apply quiet_refl].
  apply quiet_run_completion. destruct (model self =? "text-davinci-003").
  - apply quiet_get_nonchat_completion.
  - apply quiet_get_chat_completion.
Qed.

(** ** The retry *)

Ltac run_create H :=
  cbv [create]; run_monad; rewrite H; run_monad.

(** An exception of the first attempt that is no overload is swallowed:
    the invoker returns the empty text after that one call. *)
Lemma chat_first_attempt_swallowed (self : generator) (model : string)
    (messages : payload) (max_tokens temperature : Z) (stop : list string)
    (logit_bias : list (Z * Z)) (s : state) (resp : response) (w : World) (e : exn) :
  openai_create ChatCompletion
    (mkRequest model (Some messages) None max_tokens temperature stop logit_bias)
    (world s) = (resp, w) ->
  outcome resp = inl e -> is_overload e = false -> is_Exception e = true ->
  let r := get_chat_completion self model messages max_tokens temperature stop
                               logit_bias s in
  value r = inr (PStr "")
  /\ calls (final r)
     = calls s ++ [(ChatCompletion,
                    mkRequest model (Some messages) None max_tokens temperature
                              stop logit_bias)].
Proof.
  intros Hcall Hout Hov Hex. unfold get_chat_completion. run_create Hcall.
  rewrite Hout. run_monad. rewrite Hov, Hex. destruct (verbose self); cbn; auto.
Qed.

Lemma nonchat_first_attempt_swallowed (self : generator) (model : string)
    (prompt : payload) (max_tokens temperature : Z) (stop : list string)
    (logit_bias : list (Z * Z)) (s : state) (resp : response) (w : World) (e : exn) :
  openai_create Completion
    (mkRequest model None (Some prompt) max_tokens temperature stop logit_bias)
    (world s) = (resp, w) ->
  outcome resp = inl e -> is_overload e = false -> is_Exception e = true ->
  let r := get_nonchat_completion self model prompt max_tokens temperature stop
                                  logit_bias s in
  value r = inr (PStr "")
  /\ calls (final r)
     = calls s ++ [(Completion,
                    mkRequest model None (Some prompt) max_tokens temperature
                              stop logit_bias)].
Proof.
  intros Hcall Hout Hov Hex. unfold get_nonchat_completion. run_create Hcall.
  rewrite Hout. run_monad. rewrite Hov, Hex. destruct (verbose self); cbn; auto.
Qed.

(** The chat invoker after an overload: the same call is made again, and
    what it gives is what the invoker gives. *)
Lemma chat_retry (self : generator) (model : string) (messages : payload)
    (max_tokens temperature : Z) (stop : list string) (logit_bias : list (Z * Z))
    (s : state) (resp1 resp2 : response) (w1 w2 : World) (e1 : exn) :
  let req := mkRequest model (Some messages) None max_tokens temperature stop
                       logit_bias in
  openai_create ChatCompletion req (world s) = (resp1, w1) ->
  outcome resp1 = inl e1 -> is_overload e1 = true ->
  openai_create ChatCompletion req w1 = (resp2, w2) ->
  let r := get_chat_completion self model messages max_tokens temperature stop
                               logit_bias s in
  value r = rbind (outcome resp2) chat_content
  /\ calls (final r) = calls s ++ [(ChatCompletion, req); (ChatCompletion, req)]
  /\ clock (final r) = (clock s + elapsed resp1 + 5 + elapsed resp2)%Z.
Proof.
  intros req Hcall1 Hout1 Hov Hcall2. subst req. unfold get_chat_completion.
  run_create Hcall1. rewrite Hout1. run_monad. rewrite Hov.
  destruct (verbose self); run_create Hcall2;
    destruct (outcome resp2) as [e2|completion]; cbn [rbind];
    try destruct (chat_content completion); cbn [value final calls clock];
    rewrite <- app_assoc; auto.
Qed.

(** The legacy invoker after an overload: the second call goes to the chat
    endpoint, with the [prompt] keyword. *)
Lemma nonchat_retry (self : generator) (model : string) (prompt : payload)
    (max_tokens temperature : Z) (stop : list string) (logit_bias : list (Z * Z))
    (s : state) (resp1 resp2 : response) (w1 w2 : World) (e1 : exn) :
  let req := mkRequest model None (Some prompt) max_tokens temperature stop
                       logit_bias in
  openai_create Completion req (world s) = (resp1, w1) ->
  outcome resp1 = inl e1 -> is_overload e1 = true ->
  openai_create ChatCompletion req w1 = (resp2, w2) ->
  let r := get_nonchat_completion self model prompt max_tokens temperature stop
                                  logit_bias s in
  value r = rbind (outcome resp2) completion_text
  /\ calls (final r) = calls s ++ [(Completion, req); (ChatCompletion, req)]
  /\ clock (final r) = (clock s + elapsed resp1 + 5 + elapsed resp2)%Z.
Proof.
  intros req Hcall1 Hout1 Hov Hcall2. subst req. unfold get_nonchat_completion.
  run_create Hcall1. rewrite Hout1. run_monad. rewrite Hov.
  destruct (verbose self); run_create Hcall2;
    destruct (outcome resp2) as [e2|completion]; cbn [rbind];
    try destruct (completion_text completion); cbn [value final calls clock];
    rewrite <- app_assoc; auto.
Qed.

(** A first attempt that succeeds, for comparison with the retry. *)
Lemma chat_first_attempt (self : generator) (model : string) (messages : payload)
    (max_tokens temperature : Z) (stop : list string) (logit_bias : list (Z * Z))
    (s : state) (resp : response) (w : World) (completion text : pyval) :
  let req := mkRequest model (Some messages) None max_tokens temperature stop
                       logit_bias in
  openai_create ChatCompletion req (world s) = (resp, w) ->
  outcome resp = inr completion -> chat_content completion = inr text ->
  value (get_chat_completion self model messages max_tokens temperature stop
                             logit_bias s) = inr text.
Proof.
  intros req Hcall Hout Htext. subst req. unfold get_chat_completion.
  run_create Hcall. rewrite Hout. run_monad. rewrite Htext. reflexivity.
Qed.

(** C2, as the code has it: an exception of the first attempt that is no
    transient overload is swallowed and the invoker returns the empty
    text; an exception raised by the retried call is not caught and
    reaches the invoker's caller.  Both invokers; the retried call is the
    second call the invoker makes, which the legacy invoker sends to the
    chat endpoint. *)
Theorem invoker_exceptions (self : generator) (model : string) (package : payload)
    (max_tokens temperature : Z) (stop : list string) (logit_bias : list (Z * Z))
    (s : state) :
  let chat_req := mkRequest model (Some package) None max_tokens temperature stop
                            logit_bias in
  let text_req := mkRequest model None (Some package) max_tokens temperature stop
                            logit_bias in
  let chat := get_chat_completion self model package max_tokens temperature stop
                                  logit_bias s in
  let nonchat := get_nonchat_completion self model package max_tokens temperature
                                        stop logit_bias s in
  (forall e, outcome (fst (openai_create ChatCompletion chat_req (world s))) = inl e ->
             is_overload e = false -> is_Exception e = true ->
             value chat = inr (PStr ""))
  /\ (forall e, outcome (fst (openai_create Completion text_req (world s))) = inl e ->
                is_overload e = false -> is_Exception e = true ->
                value nonchat = inr (PStr ""))
  /\ (forall e1 e2,
         outcome (fst (openai_create ChatCompletion chat_req (world s))) = inl e1 ->
         is_overload e1 = true ->
         outcome (fst (openai_create ChatCompletion chat_req
                         (snd (openai_create ChatCompletion chat_req (world s)))))
         = inl e2 ->
         value chat = inl e2)
  /\ (forall e1 e2,
         outcome (fst (openai_create Completion text_req (world s))) = inl e1 ->
         is_overload e1 = true ->
         outcome (fst (openai_create ChatCompletion text_req
                         (snd (openai_create Completion text_req (world s)))))
         = inl e2 ->
         calls (final nonchat)
         = calls s ++ [(Completion, text_req); (ChatCompletion, text_req)]
         /\ value nonchat = inl e2).
Proof.
  intros chat_req text_req chat nonchat. subst chat nonchat. repeat apply conj.
  - intros e Hout Hov Hex.
    destruct (openai_create ChatCompletion chat_req (world s)) as [resp w] eqn:Hcall.
    apply (chat_first_attempt_swallowed self model package max_tokens temperature
             stop logit_bias s resp w e Hcall Hout Hov Hex).
  - intros e Hout Hov Hex.
    destruct (openai_create Completion text_req (world s)) as [resp w] eqn:Hcall.
    apply (nonchat_first_attempt_swallowed self model package max_tokens temperature
             stop logit_bias s resp w e Hcall Hout Hov Hex).
  - intros e1 e2 Hout1 Hov Hout2.
    destruct (openai_create ChatCompletion chat_req (world s)) as [resp1 w1] eqn:Hcall1.
    cbn [fst snd] in *.
    destruct (openai_create ChatCompletion chat_req w1) as [resp2 w2] eqn:Hcall2.
    destruct (chat_retry self model package max_tokens temperature stop logit_bias
                s resp1 resp2 w1 w2 e1 Hcall1 Hout1 Hov Hcall2) as [-> _].
    cbn [fst] in Hout2. rewrite Hout2. reflexivity.
  - intros e1 e2 Hout1 Hov Hout2.
    destruct (openai_create Completion text_req (world s)) as [resp1 w1] eqn:Hcall1.
    cbn [fst snd] in *.
    destruct (openai_create ChatCompletion text_req w1) as [resp2 w2] eqn:Hcall2.
    destruct (nonchat_retry self model package max_tokens temperature stop logit_bias
                s resp1 resp2 w1 w2 e1 Hcall1 Hout1 Hov Hcall2) as (Hval & Hcalls & _).
    split; [exact Hcalls|].
    cbn [fst] in Hout2. rewrite Hval, Hout2. reflexivity.
Qed.

End Orchestration.

(** ** The theorems on concrete runs *)

Lemma count_tokens_value_witness :
  @count_tokens healthy_chat_env "gpt-4-0613" [role_message "system" "a"] "ignored"
  = @count_tokens healthy_chat_env "gpt-4-0613" [role_message "system" "a"] "".
Proof.
  apply (proj1 (proj2 (@count_tokens_value healthy_chat_env "gpt-4-0613"
                         [role_message "system" "a"] ""))).
  reflexivity.
Defined.

(** C4 as stated fails: when the service rejects the first attempt with an
    error that is no overload, the invoker returns the empty text and
    [generate_query] returns with [query] and [err] both empty. *)
Lemma both_fields_empty :
  exists r,
    value (@generate_query unauthorized_env chat_generator sample_question
             (fresh unauthorized_env 0%nat)) = inr r
    /\ query r = "" /\ err r = "".
Proof. eexists. split; [vm_compute; reflexivity | split; reflexivity]. Qed.

Lemma query_or_error_witness :
  (err (mkResult sample_sql "-" "" 2 117) <> ""
   /\ query (mkResult sample_sql "-" "" 2 117) = ""
   /\ reason (mkResult sample_sql "-" "" 2 117) = "")
  \/ (err (mkResult sample_sql "-" "" 2 117) = ""
      /\ reason (mkResult sample_sql "-" "" 2 117) = "-"
      /\ exists text,
           self_completion
             (final (@generate_query healthy_chat_env chat_generator sample_question
                       (fresh healthy_chat_env 0%nat))) = Some text
           /\ extract_query text = inr (query (mkResult sample_sql "-" "" 2 117))).
Proof.
  apply (@query_or_error healthy_chat_env chat_generator sample_question
           (fresh healthy_chat_env 0%nat)).
  vm_compute. reflexivity.
Defined.

Lemma timeout_result_witness :
  exists r,
    value (@generate_query slow_env chat_generator sample_question
             (fresh slow_env 0%nat)) = inr r
    /\ err r = "QUERY GENERATION TIMEOUT" /\ query r = "" /\ reason r = ""
    /\ tokens_used r = 117%Z.
Proof.
  eapply (proj1 (@timeout_result slow_env chat_generator sample_question
                   (fresh slow_env 0%nat) chat_template _ _ _
                   eq_refl eq_refl eq_refl eq_refl)).
  reflexivity.
Defined.

(** C5 as stated fails: the service needs a minute, the deadline is ten
    seconds, and the model is one tiktoken has no encoding for.  The
    invocation exceeds the deadline, but the token count after the try
    block raises [KeyError] and [generate_query] returns no result. *)
Lemma timeout_without_result :
  (timeout finetuned_generator
   < @invocation_time slow_env finetuned_generator
       (@get_chat_completion slow_env finetuned_generator) sample_messages
       (reset (fresh slow_env 0%nat)))%Z
  /\ @prepare slow_env finetuned_generator sample_question
     = inr (mkLocals None
              (Some [role_message "system" "Write a SQL query.";
                     role_message "user"
                       "Question: how many users? Schema: table users(id, name)";
                     role_message "assistant" "Here is the query: ```sql"]),
            @get_chat_completion slow_env finetuned_generator, sample_messages)
  /\ exists e,
       value (@generate_query slow_env finetuned_generator sample_question
                (fresh slow_env 0%nat)) = inl e
       /\ exn_type e = KeyError.
Proof. split; [reflexivity|]. split; [reflexivity|]. eexists. split; reflexivity. Qed.

Lemma missing_response_delimiter_witness :
  exists e,
    value (@generate_query broken_template_env chat_generator sample_question
             (fresh broken_template_env 0%nat)) = inl e
    /\ exn_type e = IndexError
    /\ calls (final (@generate_query broken_template_env chat_generator
                       sample_question (fresh broken_template_env 0%nat))) = []
    /\ world (final (@generate_query broken_template_env chat_generator
                       sample_question (fresh broken_template_env 0%nat))) = 0%nat.
Proof.
  apply (@missing_response_delimiter broken_template_env chat_generator
           sample_question (fresh broken_template_env 0%nat)
           template_without_response).
  - discriminate.
  - reflexivity.
  - apply str_find_None. reflexivity.
Defined.

Lemma mode_selection_witness :
  @select_function healthy_legacy_env legacy_generator
    (mkLocals (Some "Question: how many users? Schema: table users(id, name) Query: ```sql")
              None)
  = inr (@get_nonchat_completion healthy_legacy_env legacy_generator, sample_prompt)
  /\ @select_function healthy_chat_env chat_generator
       (mkLocals None
          (Some [role_message "system" "Write a SQL query.";
                 role_message "user"
                   "Question: how many users? Schema: table users(id, name)";
                 role_message "assistant" "Here is the query: ```sql"]))
     = inr (@get_chat_completion healthy_chat_env chat_generator, sample_messages).
Proof.
  split.
  - destruct (@mode_selection healthy_legacy_env legacy_generator sample_question
                legacy_template _ eq_refl)
      as [(_ & prompt & Hl & Hsel)|(Hm & _)].
    + injection Hl as <-. exact Hsel.
    + elim Hm. reflexivity.
  - destruct (@mode_selection healthy_chat_env chat_generator sample_question
                chat_template _ eq_refl)
      as [(Hm & _)|(_ & sys_prompt & user_prompt & assistant_prompt & Hl & Hsel)].
    + discriminate Hm.
    + injection Hl as <- <- <-. exact Hsel.
Defined.

(** C2 as stated fails: the service is overloaded on the first call and
    answers the retried call with an error that is no overload; the chat
    invoker raises that error to its caller. *)
Lemma retry_failure_escapes :
  value (@get_chat_completion failing_retry_env chat_generator "gpt-4-0613"
           sample_messages 400 0 ["```"] [] (fresh failing_retry_env 0%nat))
  = inl api_error
  /\ is_overload api_error = false /\ is_Exception api_error = true.
Proof. repeat split. Qed.

Lemma invoker_exceptions_witness :
  value (@get_chat_completion failing_retry_env chat_generator "gpt-4-0613"
           sample_messages 400 0 ["```"] [] (fresh failing_retry_env 0%nat))
  = inl api_error
  /\ value (@get_nonchat_completion failing_retry_env legacy_generator
              "text-davinci-003" sample_prompt 400 0 ["```"] []
              (fresh failing_retry_env 0%nat))
     = inl api_error.
Proof.
  split.
  - apply (proj1 (proj2 (proj2
             (@invoker_exceptions failing_retry_env chat_generator "gpt-4-0613"
                sample_messages 400 0 ["```"] [] (fresh failing_retry_env 0%nat))))
             (mkExn RateLimitError "Rate limit reached") api_error);
      reflexivity.
  - apply (proj2 (proj2 (proj2
             (@invoker_exceptions failing_retry_env legacy_generator
                "text-davinci-003" sample_prompt 400 0 ["```"] []
                (fresh failing_retry_env 0%nat))))
             (mkExn RateLimitError "Rate limit reached") api_error);
      reflexivity.
Defined.

(** C1 on the legacy invoker: the service is overloaded on the first call
    and healthy afterwards.  The first call goes to [openai.Completion],
    the retry to [openai.ChatCompletion] with the same keywords, which the
    chat endpoint rejects; against a service that is healthy from the
    start the same invocation returns the generated text. *)
Theorem nonchat_retry_changes_endpoint :
  let retried :=
    @get_nonchat_completion overloaded_legacy_env legacy_generator
      "text-davinci-003" sample_prompt 400 0 ["```"] []
      (fresh overloaded_legacy_env 0%nat) in
  let first_try :=
    @get_nonchat_completion healthy_legacy_env legacy_generator
      "text-davinci-003" sample_prompt 400 0 ["```"] []
      (fresh healthy_legacy_env 0%nat) in
  map fst (calls (final retried)) = [Completion; ChatCompletion]
  /\ map snd (calls (final retried))
     = [mkRequest "text-davinci-003" None (Some sample_prompt) 400 0 ["```"] [];
        mkRequest "text-davinci-003" None (Some sample_prompt) 400 0 ["```"] []]
  /\ value retried = inl (invalid_request "'messages' is a required property")
  /\ value first_try = inr (PStr sample_sql).
Proof. repeat split. Qed.

(** The chat invoker under the same service: the retry is transparent. *)
Lemma chat_retry_transparent :
  let retried :=
    @get_chat_completion overloaded_chat_env chat_generator "gpt-4-0613"
      sample_messages 400 0 ["```"] [] (fresh overloaded_chat_env 0%nat) in
  let first_try :=
    @get_chat_completion healthy_chat_env chat_generator "gpt-4-0613"
      sample_messages 400 0 ["```"] [] (fresh healthy_chat_env 0%nat) in
  map fst (calls (final retried)) = [ChatCompletion; ChatCompletion]
  /\ value retried = value first_try.
Proof. repeat split. Qed.

(** * Further properties *)

(** ** Splitting on a separator that cannot overlap itself *)

Lemma str_length_app (a b : string) :
  String.length (a ++ b) = String.length a + String.length b.
Proof. induction a as [|c a IH]; simpl; [reflexivity | now rewrite IH]. Qed.

Lemma str_drop_length (n : nat) (s : string) :
  String.length (str_drop n s) = String.length s - n.
Proof. revert s. induction n; destruct s; simpl; auto. Qed.

Lemma str_drop_app (n : nat) (a b : string) :
  n <= String.length a -> str_drop n (a ++ b) = (str_drop n a ++ b)%string.
Proof.
  revert a. induction n as [|n IH]; intros a Hn.
  - destruct a; reflexivity.
  - destruct a as [|c a]; simpl in *; [lia|]. apply IH. lia.
Qed.

Lemma str_drop_all (a b : string) : str_drop (String.length a) (a ++ b) = b.
Proof. induction a as [|c a IH]; simpl; [destruct b; reflexivity | exact IH]. Qed.

Lemma str_take_all (a b : string) : str_take (String.length a) (a ++ b) = a.
Proof. induction a as [|c a IH]; simpl; [destruct b; reflexivity | now rewrite IH]. Qed.

Lemma str_drop_drop (m n : nat) (s : string) :
  str_drop n (str_drop m s) = str_drop (m + n) s.
Proof.
  revert s. induction m as [|m IH]; intros s.
  - destruct s; reflexivity.
  - destruct s as [|c s]; simpl; [destruct n; reflexivity | apply IH].
Qed.

Lemma str_take_drop (n : nat) (s : string) :
  (str_take n s ++ str_drop n s)%string = s.
Proof.
  revert s. induction n as [|n IH]; intros s.
  - destruct s; reflexivity.
  - destruct s as [|c s]; simpl; [reflexivity | now rewrite IH].
Qed.

Lemma str_app_assoc (a b c : string) : ((a ++ b) ++ c = a ++ b ++ c)%string.
Proof. induction a as [|x a IH]; simpl; [reflexivity | now rewrite IH]. Qed.

(** [str_find] returns a position where the separator starts. *)
Lemma str_find_Some (sep s : string) (i : nat) :
  str_find sep s = Some i -> prefix sep (str_drop i s) = true.
Proof.
  revert i. induction s as [|c s IH]; intros i; cbn [str_find].
  - destruct (prefix sep "") eqn:Hp; [|discriminate].
    intros H. injection H as <-. exact Hp.
  - destruct (prefix sep (String c s)) eqn:Hp.
    + intros H. injection H as <-. exact Hp.
    + destruct (str_find sep s) as [i'|]; [|discriminate].
      intros H. injection H as <-. cbn [str_drop]. now apply IH.
Qed.

(** It returns the first such position. *)
Lemma str_find_first (sep s : string) (j : nat) :
  prefix sep (str_drop j s) = true ->
  exists i, str_find sep s = Some i /\ i <= j.
Proof.
  revert j. induction s as [|c s IH]; intros j Hj; cbn [str_find].
  - assert (Hd : str_drop j "" = "") by (destruct j; reflexivity).
    rewrite Hd in Hj. rewrite Hj. exists 0. split; [reflexivity | lia].
  - destruct (prefix sep (String c s)) eqn:Hp.
    + exists 0. split; [reflexivity | lia].
    + destruct j as [|j]; [cbn [str_drop] in Hj; congruence|].
      cbn [str_drop] in Hj. destruct (IH j Hj) as (i & -> & Hi).
      exists (S i). split; [reflexivity | lia].
Qed.

Lemma prefix_of_app (u v x y : string) :
  (u ++ x = v ++ y)%string -> String.length u <= String.length v ->
  prefix u v = true.
Proof.
  revert v. induction u as [|c u IH]; intros v H Hlen.
  - destruct v; reflexivity.
  - destruct v as [|d v]; simpl in *; [lia|].
    injection H as -> H. destruct (Ascii.ascii_dec d d); [|congruence].
    apply IH; [exact H | lia].
Qed.

(** Occurrences of an unbordered separator are at least its length apart. *)
Lemma occurrences_apart (sep s : string) (i j : nat) :
  unbordered sep = true ->
  prefix sep (str_drop i s) = true -> prefix sep (str_drop j s) = true ->
  i < j -> i + String.length sep <= j.
Proof.
  intros Hu Hi Hj Hlt.
  destruct (Nat.le_gt_cases (i + String.length sep) j) as [|Hclose]; [assumption|].
  exfalso. apply prefix_app in Hi. destruct Hi as [x Hx].
  replace j with (i + (j - i)) in Hj by lia.
  rewrite <- str_drop_drop, Hx, str_drop_app in Hj by lia.
  apply prefix_app in Hj. destruct Hj as [y Hy].
  assert (Hb : prefix (str_drop (j - i) sep) sep = true).
  { apply (prefix_of_app _ _ x y Hy). rewrite str_drop_length. lia. }
  unfold unbordered in Hu. rewrite forallb_forall in Hu.
  specialize (Hu (j - i)). rewrite Hb in Hu.
  assert (Hin : In (j - i) (seq 1 (String.length sep - 1))) by (apply in_seq; lia).
  specialize (Hu Hin). discriminate.
Qed.

Lemma occurs_inside (sep a x : string) (i : nat) :
  prefix sep (str_drop i (a ++ x)) = true ->
  i + String.length sep <= String.length a -> occurs sep a.
Proof.
  intros Hp Hlen. rewrite str_drop_app in Hp by lia.
  apply prefix_app in Hp. destruct Hp as [y Hy].
  assert (Hpa : prefix sep (str_drop i a) = true).
  { apply (prefix_of_app _ _ y x); [now symmetry|]. rewrite str_drop_length. lia. }
  apply prefix_app in Hpa. destruct Hpa as [t Ht].
  exists (str_take i a), t. rewrite <- Ht. symmetry. apply str_take_drop.
Qed.

Lemma split_loop_step (c : ascii) (sep' s : string) (i : nat) :
  str_find (String c sep') s = Some i ->
  split_loop c sep' s
  = str_take i s
      :: split_loop c sep' (str_drop (i + String.length (String c sep')) s).
Proof.
  intros H. rewrite split_loop_equation_1.
  generalize (inspect (str_find (String c sep') s)).
  intros [[k|] Hk]; [|congruence].
  assert (k = i) by congruence. subst k. reflexivity.
Qed.

(** The first segment: up to the first occurrence. *)
Lemma split_loop_first (c : ascii) (sep' a rest : string) :
  unbordered (String c sep') = true -> ~ occurs (String c sep') a ->
  split_loop c sep' (a ++ String c sep' ++ rest) = a :: split_loop c sep' rest.
Proof.
  intros Hu Ha. set (sep := String c sep') in *.
  assert (Hat : prefix sep (str_drop (String.length a) (a ++ sep ++ rest)) = true).
  { rewrite str_drop_all. apply prefix_app. now exists rest. }
  destruct (str_find_first _ _ _ Hat) as (i & Hfind & Hle).
  assert (Hi : i = String.length a).
  { destruct (Nat.eq_dec i (String.length a)) as [|Hne]; [assumption|].
    exfalso. apply Ha.
    apply (occurs_inside sep a (sep ++ rest) i); [now apply str_find_Some|].
    apply (occurrences_apart sep (a ++ sep ++ rest)); auto.
    - now apply str_find_Some.
    - lia. }
  subst i. rewrite (split_loop_step _ _ _ _ Hfind). fold sep.
  rewrite str_take_all. f_equal. f_equal.
  rewrite <- str_drop_drop, str_drop_all. apply str_drop_all.
Qed.

(** The last segment: what follows the last occurrence. *)
Lemma split_loop_after_last (c : ascii) (sep' pre q : string) :
  unbordered (String c sep') = true -> ~ occurs (String c sep') q ->
  last (split_loop c sep' (pre ++ String c sep' ++ q)) "" = q.
Proof.
  intros Hu Hq. set (sep := String c sep') in *.
  remember (String.length pre) as n eqn:Hn. revert pre Hn.
  induction n as [n IH] using lt_wf_ind. intros pre Hn.
  assert (Hat : prefix sep (str_drop (String.length pre) (pre ++ sep ++ q)) = true).
  { rewrite str_drop_all. apply prefix_app. now exists q. }
  destruct (str_find_first _ _ _ Hat) as (i & Hfind & Hle).
  rewrite (split_loop_step _ _ _ _ Hfind). fold sep.
  destruct (split_loop_last c sep'
              (str_drop (i + String.length sep) (pre ++ sep ++ q))) as [Hne _].
  fold sep in Hne.
  destruct (split_loop c sep' (str_drop (i + String.length sep) (pre ++ sep ++ q)))
    as [|x xs] eqn:Hrest; [congruence|].
  change (last (str_take i (pre ++ sep ++ q) :: x :: xs) "") with (last (x :: xs) "").
  rewrite <- Hrest. clear Hrest Hne x xs.
  destruct (Nat.eq_dec i (String.length pre)) as [->|Hneq].
  - rewrite <- str_drop_drop, str_drop_all, str_drop_all.
    apply str_find_None in Hq. rewrite (split_loop_absent _ _ _ Hq). reflexivity.
  - assert (Hfar : i + String.length sep <= String.length pre).
    { apply (occurrences_apart sep (pre ++ sep ++ q)); auto.
      - now apply str_find_Some.
      - lia. }
    rewrite str_drop_app by lia.
    apply (IH (String.length (str_drop (i + String.length sep) pre))); [|reflexivity].
    rewrite str_drop_length. subst n. unfold sep. simpl String.length. lia.
Qed.

(** X1: whatever precedes it, the text after a fence marker is what the
    extractor returns, provided that text holds no further marker. *)
Theorem extract_query_after_marker (pre q : string) :
  ~ occurs "```sql" q ->
  extract_query (PStr (pre ++ "```sql" ++ q)) = inr q.
Proof.
  intros Hq. unfold extract_query, py_split, str_split, rbind.
  rewrite (list_getitem_last _ ""); [|apply split_loop_last].
  f_equal. apply split_loop_after_last; [reflexivity | exact Hq].
Qed.

Lemma occurs_app_r (sep x y : string) : occurs sep y -> occurs sep (x ++ y).
Proof.
  intros (a & b & ->). exists (x ++ a)%string, b. symmetry. apply str_app_assoc.
Qed.

(** ** Prompt assembly *)

Section Assembly.
Context `{E : Env}.

(** X2: in chat mode, a template made of a system part, the input
    delimiter, a user part, the response delimiter and a priming part,
    each delimiter occurring once, yields exactly these three parts as the
    system, user and assistant messages; only the user part is formatted. *)
Theorem assemble_prompt_sections (self : generator)
    (question sys_part user_part priming metadata user_prompt : string) :
  model self <> "text-davinci-003" ->
  ~ occurs "### Input:" sys_part ->
  ~ occurs "### Input:" (user_part ++ "### Response:" ++ priming) ->
  ~ occurs "### Response:" (sys_part ++ "### Input:" ++ user_part) ->
  ~ occurs "### Response:" priming ->
  prune_metadata_str question (db_name self) = inr metadata ->
  str_format user_part question metadata = inr user_prompt ->
  assemble_prompt self question
    (sys_part ++ "### Input:" ++ user_part ++ "### Response:" ++ priming)
  = inr (mkLocals None
           (Some [role_message "system" sys_part; role_message "user" user_prompt;
                  role_message "assistant" priming])).
Proof.
  intros Hm Hi1 Hi2 Hr1 Hr2 Hprune Hformat.
  apply String.eqb_neq in Hm.
  assert (Hr3 : ~ occurs "### Response:" user_part).
  { intros H. apply Hr1. apply occurs_app_r. now apply (occurs_app_r _ "### Input:"). }
  unfold assemble_prompt. rewrite Hm. cbv [negb str_split]. cbn [rbind].
  rewrite (split_loop_first "#" "## Input:" sys_part
             (user_part ++ "### Response:" ++ priming) eq_refl Hi1).
  apply str_find_None in Hi2. rewrite (split_loop_absent _ _ _ Hi2).
  change (list_getitem [sys_part; (user_part ++ "### Response:" ++ priming)%string] 0)
    with (@inr exn string sys_part).
  change (list_getitem [sys_part; (user_part ++ "### Response:" ++ priming)%string] 1)
    with (@inr exn string (user_part ++ "### Response:" ++ priming)%string).
  cbn [rbind].
  rewrite (split_loop_first "#" "## Response:" user_part priming eq_refl Hr3).
  pose proof Hr2 as Hr2'. apply str_find_None in Hr2'.
  rewrite (split_loop_absent _ _ _ Hr2').
  change (list_getitem [user_part; priming] 0) with (@inr exn string user_part).
  cbn [rbind].
  replace (sys_part ++ "### Input:" ++ user_part ++ "### Response:" ++ priming)%string
    with ((sys_part ++ "### Input:" ++ user_part) ++ "### Response:" ++ priming)%string
    by (rewrite !str_app_assoc; reflexivity).
  rewrite (split_loop_first "#" "## Response:" _ priming eq_refl Hr1).
  rewrite (split_loop_absent _ _ _ Hr2').
  change (list_getitem [(sys_part ++ "### Input:" ++ user_part)%string; priming] 1)
    with (@inr exn string priming).
  cbn [rbind]. rewrite Hprune. cbn [rbind]. rewrite Hformat. reflexivity.
Qed.

End Assembly.

(** ** The calls an invoker makes *)

Lemma list_getitem_error {A : Type} (l : list A) (i : Z) (e : exn) :
  list_getitem l i = inl e -> e = index_error.
Proof.
  unfold list_getitem.
  repeat match goal with |- context [if ?b then _ else _] => destruct b end;
    try destruct (nth_error _ _); intros H; inversion H; reflexivity.
Qed.

Lemma getitem_key_error (v : pyval) (k : string) (e : exn) :
  getitem_key v k = inl e -> is_overload e = false /\ is_Exception e = true.
Proof.
  destruct v as [| | | |items]; cbn [getitem_key];
    try destruct (assoc k items); intros H; inversion H; auto.
Qed.

Lemma getitem_idx_error (v : pyval) (i : Z) (e : exn) :
  getitem_idx v i = inl e -> is_overload e = false /\ is_Exception e = true.
Proof.
  destruct v as [|s| |l|]; cbn [getitem_idx].
  - intros H; inversion H; auto.
  - destruct (list_getitem (list_ascii_of_string s) i); intros H; inversion H; auto.
  - intros H; inversion H; auto.
  - intros H. apply list_getitem_error in H. subst e. auto.
  - intros H; inversion H; auto.
Qed.

(** A lookup that fails in a completion object raises no overload. *)
Lemma chat_content_error (completion : pyval) (e : exn) :
  chat_content completion = inl e -> is_overload e = false /\ is_Exception e = true.
Proof.
  unfold chat_content.
  destruct (getitem_key completion "choices") as [e1|choices] eqn:H1; cbn [rbind].
  { intros H. injection H as <-. eapply getitem_key_error, H1. }
  destruct (getitem_idx choices 0) as [e2|choice] eqn:H2; cbn [rbind].
  { intros H. injection H as <-. eapply getitem_idx_error, H2. }
  destruct (getitem_key choice "message") as [e3|msg] eqn:H3; cbn [rbind].
  { intros H. injection H as <-. eapply getitem_key_error, H3. }
  apply getitem_key_error.
Qed.

Lemma completion_text_error (completion : pyval) (e : exn) :
  completion_text completion = inl e -> is_overload e = false /\ is_Exception e = true.
Proof.
  unfold completion_text.
  destruct (getitem_key completion "choices") as [e1|choices] eqn:H1; cbn [rbind].
  { intros H. injection H as <-. eapply getitem_key_error, H1. }
  destruct (getitem_idx choices 0) as [e2|choice] eqn:H2; cbn [rbind].
  { intros H. injection H as <-. eapply getitem_idx_error, H2. }
  apply getitem_key_error.
Qed.

Section Calls.
Context `{E : Env}.

(** X3: the chat invoker calls the chat endpoint once, and once more,
    five seconds later and with the same keywords, exactly when the first
    call raised a transient overload; it never makes a third call. *)
Theorem chat_completion_calls (self : generator) (model : string) (messages : payload)
    (max_tokens temperature : Z) (stop : list string) (logit_bias : list (Z * Z))
    (s : state) :
  let req := mkRequest model (Some messages) None max_tokens temperature stop
                       logit_bias in
  let first := openai_create ChatCompletion req (world s) in
  let second := openai_create ChatCompletion req (snd first) in
  let r := get_chat_completion self model messages max_tokens temperature stop
                               logit_bias s in
  if overloaded (fst first)
  then calls (final r) = calls s ++ [(ChatCompletion, req); (ChatCompletion, req)]
       /\ clock (final r)
          = (clock s + elapsed (fst first) + 5 + elapsed (fst second))%Z
       /\ world (final r) = snd second
  else calls (final r) = calls s ++ [(ChatCompletion, req)]
       /\ clock (final r) = (clock s + elapsed (fst first))%Z
       /\ world (final r) = snd first.
Proof.
  intros req first second r. subst r first second. unfold overloaded.
  unfold get_chat_completion. cbv [create]. run_monad. fold req.
  destruct (openai_create ChatCompletion req (world s)) as [resp1 w1].
  cbn [fst snd]. run_monad.
  destruct (outcome resp1) as [e|completion].
  - destruct (is_overload e).
    + destruct (verbose self); run_monad;
        destruct (openai_create ChatCompletion req w1) as [resp2 w2];
        cbn [fst snd]; run_monad;
        destruct (outcome resp2) as [e2|completion];
        try destruct (chat_content completion);
        cbn [final calls clock world]; rewrite <- app_assoc; auto.
    + destruct (is_Exception e); destruct (verbose self); cbn; auto.
  - destruct (chat_content completion) as [e|text] eqn:Hc; run_monad; [|cbn; auto].
    destruct (chat_content_error _ _ Hc) as [-> ->].
    destruct (verbose self); cbn; auto.
Qed.

(** X4: the legacy invoker calls the completion endpoint with the prompt
    keyword; it makes one further call, with the same keywords, exactly
    when the first call raised a transient overload, and never a third. *)
Theorem nonchat_completion_calls (self : generator) (model : string) (prompt : payload)
    (max_tokens temperature : Z) (stop : list string) (logit_bias : list (Z * Z))
    (s : state) :
  let req := mkRequest model None (Some prompt) max_tokens temperature stop
                       logit_bias in
  let first := openai_create Completion req (world s) in
  let r := get_nonchat_completion self model prompt max_tokens temperature stop
                                  logit_bias s in
  exists ep,
    calls (final r)
    = calls s ++ (Completion, req)
                   :: (if overloaded (fst first) then [(ep, req)] else []).
Proof.
  intros req first r. subst r first. unfold overloaded. exists ChatCompletion.
  unfold get_nonchat_completion. cbv [create]. run_monad. fold req.
  destruct (openai_create Completion req (world s)) as [resp1 w1].
  cbn [fst snd]. run_monad.
  destruct (outcome resp1) as [e|completion].
  - destruct (is_overload e).
    + destruct (verbose self); run_monad;
        destruct (openai_create ChatCompletion req w1) as [resp2 w2];
        cbn [fst snd]; run_monad;
        destruct (outcome resp2) as [e2|completion];
        try destruct (completion_text completion);
        cbn [final calls clock world]; rewrite <- app_assoc; auto.
    + destruct (is_Exception e); destruct (verbose self); cbn; auto.
  - destruct (completion_text completion) as [e|text] eqn:Hc; run_monad; [|cbn; auto].
    destruct (completion_text_error _ _ Hc) as [-> ->].
    destruct (verbose self); cbn; auto.
Qed.

(** X5: a first answer the text cannot be read from (a key is missing,
    the list of choices is empty) is swallowed like an exception of the
    call: both invokers return the empty text. *)
Theorem unreadable_completion_swallowed (self : generator) (model : string)
    (package : payload) (max_tokens temperature : Z) (stop : list string)
    (logit_bias : list (Z * Z)) (s : state) :
  (forall completion e,
      outcome (fst (openai_create ChatCompletion
                      (mkRequest model (Some package) None max_tokens temperature
                                 stop logit_bias) (world s))) = inr completion ->
      chat_content completion = inl e ->
      value (get_chat_completion self model package max_tokens temperature stop
                                 logit_bias s) = inr (PStr ""))
  /\ (forall completion e,
         outcome (fst (openai_create Completion
                         (mkRequest model None (Some package) max_tokens temperature
                                    stop logit_bias) (world s))) = inr completion ->
         completion_text completion = inl e ->
         value (get_nonchat_completion self model package max_tokens temperature
                                       stop logit_bias s) = inr (PStr "")).
Proof.
  split; intros completion e Hout Hc.
  - unfold get_chat_completion. cbv [create]. run_monad.
    destruct (openai_create ChatCompletion _ (world s)) as [resp1 w1].
    cbn [fst] in Hout. run_monad. rewrite Hout. run_monad. rewrite Hc.
    destruct (chat_content_error _ _ Hc) as [-> ->].
    destruct (verbose self); reflexivity.
  - unfold get_nonchat_completion. cbv [create]. run_monad.
    destruct (openai_create Completion _ (world s)) as [resp1 w1].
    cbn [fst] in Hout. run_monad. rewrite Hout. run_monad. rewrite Hc.
    destruct (completion_text_error _ _ Hc) as [-> ->].
    destruct (verbose self); reflexivity.
Qed.

(** X6: the retry of the chat invoker is transparent: when the first call
    raised a transient overload and the retried call returns a completion
    whose text can be read, the invoker returns that text, as it does
    whenever the first call returns this completion. *)
Theorem chat_retry_same_text (self : generator) (model : string) (messages : payload)
    (max_tokens temperature : Z) (stop : list string) (logit_bias : list (Z * Z))
    (s : state) (e1 : exn) (completion text : pyval) :
  let req := mkRequest model (Some messages) None max_tokens temperature stop
                       logit_bias in
  let first := openai_create ChatCompletion req (world s) in
  outcome (fst first) = inl e1 -> is_overload e1 = true ->
  outcome (fst (openai_create ChatCompletion req (snd first))) = inr completion ->
  chat_content completion = inr text ->
  value (get_chat_completion self model messages max_tokens temperature stop
                             logit_bias s) = inr text
  /\ forall s',
       outcome (fst (openai_create ChatCompletion req (world s'))) = inr completion ->
       value (get_chat_completion self model messages max_tokens temperature stop
                                  logit_bias s') = inr text.
Proof.
  intros req first Hout1 Hov Hout2 Htext. subst first. split.
  - destruct (openai_create ChatCompletion req (world s)) as [resp1 w1] eqn:Hcall1.
    cbn [fst snd] in *.
    destruct (openai_create ChatCompletion req w1) as [resp2 w2] eqn:Hcall2.
    cbn [fst] in Hout2.
    destruct (chat_retry self model messages max_tokens temperature stop logit_bias
                s resp1 resp2 w1 w2 e1 Hcall1 Hout1 Hov Hcall2) as [-> _].
    rewrite Hout2. exact Htext.
  - intros s' Hout.
    destruct (openai_create ChatCompletion req (world s')) as [resp w] eqn:Hcall.
    apply (chat_first_attempt self model messages max_tokens temperature stop
             logit_bias s' resp w completion text Hcall Hout Htext).
Qed.

End Calls.

(** ** generate_query, path by path *)

Section Paths.
Context `{E : Env}.

Lemma prepare_cases (self : generator) (question : string) :
  match prepare self question with
  | inl e =>
      read_file (prompt_file self) = inl e
      \/ (exists chat_prompt,
            read_file (prompt_file self) = inr chat_prompt
            /\ (assemble_prompt self question chat_prompt = inl e
                \/ exists l, assemble_prompt self question chat_prompt = inr l
                             /\ select_function self l = inl e))
  | inr (l, f, pkg) =>
      exists chat_prompt,
        read_file (prompt_file self) = inr chat_prompt
        /\ assemble_prompt self question chat_prompt = inr l
        /\ select_function self l = inr (f, pkg)
  end.
Proof.
  unfold prepare.
  destruct (read_file (prompt_file self)) as [e|chat_prompt]; cbn [rbind]; [auto|].
  destruct (assemble_prompt self question chat_prompt) as [e|l] eqn:Hasm;
    cbn [rbind]; [eauto 6|].
  destruct (select_function self l) as [e|[f pkg]] eqn:Hsel; cbn [rbind fst snd];
    eauto 8.
Qed.

(** A failure before the call leaves [generate_query] at once. *)
Lemma generate_query_unprepared (self : generator) (question : string) (s : state)
    (e : exn) :
  prepare self question = inl e ->
  generate_query self question s = mkRun (inl e) (reset s) [] instant.
Proof.
  intros Hprep. pose proof (prepare_cases self question) as H. rewrite Hprep in H.
  unfold generate_query. run_monad.
  destruct H as [Hread|(chat_prompt & Hread & [Hasm|(l & Hasm & Hsel)])].
  - rewrite Hread. reflexivity.
  - rewrite Hread, Hasm. reflexivity.
  - rewrite Hread, Hasm, Hsel. reflexivity.
Qed.

Lemma generate_query_prepared_run (self : generator) (question : string) (s : state)
    (l : locals) (f : invoker) (pkg : payload) :
  prepare self question = inr (l, f, pkg) ->
  select_function self l = inr (f, pkg)
  /\ silent (generate_query self question s)
     = (match value (run_completion self f pkg (reset s)) with
        | inl e => inl e
        | inr _ =>
            match tokens_of_prompt self l with
            | inl e => inl e
            | inr n =>
                let s' := final (run_completion self f pkg (reset s)) in
                inr (mkResult (self_query s') (self_reason s') (self_err s')
                              (clock s' - clock s) n)
            end
        end,
        final (run_completion self f pkg (reset s))).
Proof.
  intros Hprep. pose proof (prepare_cases self question) as H. rewrite Hprep in H.
  destruct H as (chat_prompt & Hread & Hasm & Hsel). split; [exact Hsel|].
  now apply (generate_query_run self question s chat_prompt).
Qed.

(** The bounded call leaves the service and the call log as the invoker
    left them, by the deadline at the latest. *)
Lemma run_completion_service (self : generator) (f : invoker) (pkg : payload)
    (s : state) :
  calls (final (run_completion self f pkg s))
  = calls (final (func_timeout (timeout self) (invocation self f pkg) s))
  /\ world (final (run_completion self f pkg s))
     = world (final (func_timeout (timeout self) (invocation self f pkg) s)).
Proof.
  unfold run_completion, invocation. run_monad.
  destruct (func_timeout (timeout self) (f (model self) pkg 400%Z 0%Z ["```"] []) s)
    as [v s1 o stop].
  cbn [final].
  destruct v as [e|text];
    [ destruct e as [[] msg]; destruct (verbose self); cbn -[generation_error];
      destruct (self_completion s1); cbn -[generation_error]; auto
    | destruct (extract_query text) as [e|q];
      [ destruct e as [[] msg]; destruct (verbose self); cbn -[generation_error]; auto
      | cbn; auto ] ].
Qed.

(** What holds of the state a worker ends in, and of every state it can
    be stopped in, holds of the state the bounded call ends in. *)
Lemma func_timeout_final {A : Type} (t : Z) (f : M A) (s : state) (P : state -> Prop) :
  (forall s0 c, P s0 -> P (set_clock c s0)) ->
  P (final (f s)) ->
  (forall d s_stop out,
      (clock s <= d)%Z -> stopped (f s) d = Some (s_stop, out) -> P s_stop) ->
  P (final (func_timeout t f s)).
Proof.
  intros Hclock Hfinal Hstop. unfold func_timeout.
  destruct (f s) as [v s1 o stop]. cbn [final stopped] in *.
  destruct (t <? clock s1 - clock s)%Z; [|exact Hfinal].
  destruct (stop (clock s + Z.max 0 t)%Z) as [[s_stop o_stop]|] eqn:Hnow; cbn [final].
  - apply Hclock, (Hstop (clock s + Z.max 0 t)%Z s_stop o_stop); [lia | exact Hnow].
  - apply Hclock, Hfinal.
Qed.

(** The bounded call when the invoker returns in time a value the query
    can be extracted from. *)
Lemma run_completion_returned (self : generator) (f : invoker) (pkg : payload)
    (s : state) (v : pyval) (q : string) :
  (invocation_time self f pkg s <= timeout self)%Z ->
  value (invocation self f pkg s) = inr v ->
  extract_query v = inr q ->
  let r := run_completion self f pkg s in
  let s1 := final (invocation self f pkg s) in
  value r = inr tt /\ self_query (final r) = q /\ self_reason (final r) = "-"
  /\ self_err (final r) = self_err s1 /\ self_completion (final r) = Some v
  /\ clock (final r) = clock s1.
Proof.
  unfold invocation_time, run_completion, func_timeout, invocation. run_monad.
  destruct (f (model self) pkg 400%Z 0%Z ["```"] [] s) as [v1 s1 o].
  cbn [final value]. intros Hin -> Hx.
  assert (Hlt : (timeout self <? clock s1 - clock s)%Z = false)
    by (apply Z.ltb_ge; exact Hin).
  rewrite Hlt, Hx. cbn. auto 7.
Qed.

(** The bounded call when an exception that is neither a timeout nor a
    [KeyError] comes out of the invoker, or out of the extraction, in
    time. *)
Lemma run_completion_raised (self : generator) (f : invoker) (pkg : payload)
    (s : state) (e : exn) :
  (invocation_time self f pkg s <= timeout self)%Z ->
  value (invocation self f pkg s) = inl e
  \/ (exists v, value (invocation self f pkg s) = inr v /\ extract_query v = inl e) ->
  is_FunctionTimedOut e = false -> is_KeyError e = false ->
  let r := run_completion self f pkg s in
  value r = inr tt /\ self_err (final r) = generation_error e
  /\ self_query (final r) = "" /\ self_reason (final r) = "".
Proof.
  unfold invocation_time, run_completion, func_timeout, invocation. run_monad.
  destruct (f (model self) pkg 400%Z 0%Z ["```"] [] s) as [v1 s1 o].
  cbn [final value]. intros Hin Hval Hfto Hkey.
  assert (Hex : is_Exception e = true).
  { revert Hfto. unfold is_FunctionTimedOut, is_Exception.
    destruct (exn_type e); auto; discriminate. }
  assert (Hlt : (timeout self <? clock s1 - clock s)%Z = false)
    by (apply Z.ltb_ge; exact Hin).
  rewrite Hlt. destruct Hval as [->|(v & -> & Hx)]; [|rewrite Hx];
    rewrite Hfto, Hex; destruct (verbose self); cbn -[generation_error];
    rewrite Hkey; cbn -[generation_error]; auto.
Qed.

Lemma chat_calls_shape (self : generator) (model : string) (messages : payload)
    (max_tokens temperature : Z) (stop : list string) (logit_bias : list (Z * Z))
    (s : state) :
  let req := mkRequest model (Some messages) None max_tokens temperature stop
                       logit_bias in
  exists more,
    calls (final (get_chat_completion self model messages max_tokens temperature
                                      stop logit_bias s))
    = calls s ++ (ChatCompletion, req) :: more
    /\ List.length more <= 1 /\ forall c, In c more -> snd c = req.
Proof.
  intros req. unfold get_chat_completion. cbv [create]. run_monad. fold req.
  destruct (openai_create ChatCompletion req (world s)) as [resp1 w1]. run_monad.
  assert (Hone : exists more,
             calls s ++ [(ChatCompletion, req)] = calls s ++ (ChatCompletion, req) :: more
             /\ List.length more <= 1 /\ forall c, In c more -> snd c = req).
  { exists []. simpl. intuition. }
  assert (Htwo : exists more,
             (calls s ++ [(ChatCompletion, req)]) ++ [(ChatCompletion, req)]
             = calls s ++ (ChatCompletion, req) :: more
             /\ List.length more <= 1 /\ forall c, In c more -> snd c = req).
  { exists [(ChatCompletion, req)]. rewrite <- app_assoc. simpl.
    intuition; subst; reflexivity. }
  destruct (outcome resp1) as [e|completion].
  - destruct (is_overload e).
    + destruct (verbose self); run_monad;
        destruct (openai_create ChatCompletion req w1) as [resp2 w2]; run_monad;
        destruct (outcome resp2) as [e2|completion];
        try destruct (chat_content completion); exact Htwo.
    + destruct (is_Exception e); destruct (verbose self); exact Hone.
  - destruct (chat_content completion) as [e|text] eqn:Hc; run_monad; [|exact Hone].
    destruct (chat_content_error _ _ Hc) as [-> ->].
    destruct (verbose self); exact Hone.
Qed.

Lemma nonchat_calls_shape (self : generator) (model : string) (prompt : payload)
    (max_tokens temperature : Z) (stop : list string) (logit_bias : list (Z * Z))
    (s : state) :
  let req := mkRequest model None (Some prompt) max_tokens temperature stop
                       logit_bias in
  exists more,
    calls (final (get_nonchat_completion self model prompt max_tokens temperature
                                         stop logit_bias s))
    = calls s ++ (Completion, req) :: more
    /\ List.length more <= 1 /\ forall c, In c more -> snd c = req.
Proof.
  intros req. unfold get_nonchat_completion. cbv [create]. run_monad. fold req.
  destruct (openai_create Completion req (world s)) as [resp1 w1]. run_monad.
  assert (Hone : exists more,
             calls s ++ [(Completion, req)] = calls s ++ (Completion, req) :: more
             /\ List.length more <= 1 /\ forall c, In c more -> snd c = req).
  { exists []. simpl. intuition. }
  assert (Htwo : exists more,
             (calls s ++ [(Completion, req)]) ++ [(ChatCompletion, req)]
             = calls s ++ (Completion, req) :: more
             /\ List.length more <= 1 /\ forall c, In c more -> snd c = req).
  { exists [(ChatCompletion, req)]. rewrite <- app_assoc. simpl.
    intuition; subst; reflexivity. }
  destruct (outcome resp1) as [e|completion].
  - destruct (is_overload e).
    + destruct (verbose self); run_monad;
        destruct (openai_create ChatCompletion req w1) as [resp2 w2]; run_monad;
        destruct (outcome resp2) as [e2|completion];
        try destruct (completion_text completion); exact Htwo.
    + destruct (is_Exception e); destruct (verbose self); exact Hone.
  - destruct (completion_text completion) as [e|text] eqn:Hc; run_monad; [|exact Hone].
    destruct (completion_text_error _ _ Hc) as [-> ->].
    destruct (verbose self); exact Hone.
Qed.

Ltac stop_cases :=
  cbv [stopped_then instant];
  repeat match goal with
         | |- context [(?a <? ?b)%Z] => destruct (Z.ltb_spec a b)
         end;
  let H := fresh in
  intros H; try discriminate H; try (injection H as <- <-).

(** Stopped once its first call has begun, the chat invoker has made that
    call and at most the retry. *)
Lemma chat_calls_stopped (self : generator) (model : string) (messages : payload)
    (max_tokens temperature : Z) (stop : list string) (logit_bias : list (Z * Z))
    (s : state) (d : Z) (s_stop : state) (out : list string) :
  let req := mkRequest model (Some messages) None max_tokens temperature stop
                       logit_bias in
  (clock s <= d)%Z ->
  stopped (get_chat_completion self model messages max_tokens temperature
                               stop logit_bias s) d = Some (s_stop, out) ->
  exists more,
    calls s_stop = calls s ++ (ChatCompletion, req) :: more
    /\ List.length more <= 1 /\ forall c, In c more -> snd c = req.
Proof.
  intros req Hd. unfold get_chat_completion. cbv [create]. run_monad. fold req.
  destruct (openai_create ChatCompletion req (world s)) as [resp1 w1]. run_monad.
  assert (Hone : exists more,
             calls s ++ [(ChatCompletion, req)] = calls s ++ (ChatCompletion, req) :: more
             /\ List.length more <= 1 /\ forall c, In c more -> snd c = req).
  { exists []. simpl. intuition. }
  assert (Htwo : exists more,
             (calls s ++ [(ChatCompletion, req)]) ++ [(ChatCompletion, req)]
             = calls s ++ (ChatCompletion, req) :: more
             /\ List.length more <= 1 /\ forall c, In c more -> snd c = req).
  { exists [(ChatCompletion, req)]. rewrite <- app_assoc. simpl.
    intuition; subst; reflexivity. }
  destruct (outcome resp1) as [e|completion].
  - destruct (is_overload e).
    + destruct (verbose self); run_monad;
        destruct (openai_create ChatCompletion req w1) as [resp2 w2]; run_monad;
        destruct (outcome resp2) as [e2|completion];
        try destruct (chat_content completion); cbn [stopped]; stop_cases;
        cbn [calls]; first [lia | exact Hone | exact Htwo].
    + destruct (is_Exception e); destruct (verbose self); cbn [stopped]; stop_cases;
        cbn [calls]; first [lia | exact Hone | exact Htwo].
  - destruct (chat_content completion) as [e|text] eqn:Hc; run_monad.
    + destruct (chat_content_error _ _ Hc) as [-> ->].
      destruct (verbose self); cbn [stopped]; stop_cases;
        cbn [calls]; first [lia | exact Hone | exact Htwo].
    + stop_cases; cbn [calls]; first [lia | exact Hone | exact Htwo].
Qed.

Lemma nonchat_calls_stopped (self : generator) (model : string) (prompt : payload)
    (max_tokens temperature : Z) (stop : list string) (logit_bias : list (Z * Z))
    (s : state) (d : Z) (s_stop : state) (out : list string) :
  let req := mkRequest model None (Some prompt) max_tokens temperature stop
                       logit_bias in
  (clock s <= d)%Z ->
  stopped (get_nonchat_completion self model prompt max_tokens temperature
                                  stop logit_bias s) d = Some (s_stop, out) ->
  exists more,
    calls s_stop = calls s ++ (Completion, req) :: more
    /\ List.length more <= 1 /\ forall c, In c more -> snd c = req.
Proof.
  intros req Hd. unfold get_nonchat_completion. cbv [create]. run_monad. fold req.
  destruct (openai_create Completion req (world s)) as [resp1 w1]. run_monad.
  assert (Hone : exists more,
             calls s ++ [(Completion, req)] = calls s ++ (Completion, req) :: more
             /\ List.length more <= 1 /\ forall c, In c more -> snd c = req).
  { exists []. simpl. intuition. }
  assert (Htwo : exists more,
             (calls s ++ [(Completion, req)]) ++ [(ChatCompletion, req)]
             = calls s ++ (Completion, req) :: more
             /\ List.length more <= 1 /\ forall c, In c more -> snd c = req).
  { exists [(ChatCompletion, req)]. rewrite <- app_assoc. simpl.
    intuition; subst; reflexivity. }
  destruct (outcome resp1) as [e|completion].
  - destruct (is_overload e).
    + destruct (verbose self); run_monad;
        destruct (openai_create ChatCompletion req w1) as [resp2 w2]; run_monad;
        destruct (outcome resp2) as [e2|completion];
        try destruct (completion_text completion); cbn [stopped]; stop_cases;
        cbn [calls]; first [lia | exact Hone | exact Htwo].
    + destruct (is_Exception e); destruct (verbose self); cbn [stopped]; stop_cases;
        cbn [calls]; first [lia | exact Hone | exact Htwo].
  - destruct (completion_text completion) as [e|text] eqn:Hc; run_monad.
    + destruct (completion_text_error _ _ Hc) as [-> ->].
      destruct (verbose self); cbn [stopped]; stop_cases;
        cbn [calls]; first [lia | exact Hone | exact Htwo].
    + stop_cases; cbn [calls]; first [lia | exact Hone | exact Htwo].
Qed.

(** X7: once the prompt is assembled, [generate_query] calls the service
    once or twice and no more.  The first call goes to the endpoint of the
    configured mode; every call carries the configured model, the assembled
    prompt, 400 as token limit, temperature 0, one stop sequence (the
    fence) and an empty bias map. *)
Theorem generate_query_calls (self : generator) (question : string) (s : state)
    (l : locals) (f : invoker) (pkg : payload) :
  prepare self question = inr (l, f, pkg) ->
  exists more,
    calls (final (generate_query self question s))
    = calls s ++ (first_endpoint self, sent_request self pkg) :: more
    /\ List.length more <= 1
    /\ forall c, In c more -> snd c = sent_request self pkg.
Proof.
  intros Hprep.
  destruct (generate_query_prepared_run self question s l f pkg Hprep) as [Hsel Hrun].
  unfold silent in Hrun. injection Hrun as _ ->.
  destruct (run_completion_service self f pkg (reset s)) as [-> _].
  change (calls s) with (calls (reset s)).
  apply (func_timeout_final (timeout self) (invocation self f pkg) (reset s)
           (fun s' => exists more,
                calls s' = calls (reset s)
                           ++ (first_endpoint self, sent_request self pkg) :: more
                /\ List.length more <= 1
                /\ forall c, In c more -> snd c = sent_request self pkg)).
  { intros s0 c H. exact H. }
  all: unfold invocation, first_endpoint, sent_request;
    apply select_function_cases in Hsel;
    destruct Hsel as [(Hm & -> & _)|(Hm & -> & _)];
    [apply String.eqb_eq in Hm | apply String.eqb_neq in Hm]; rewrite Hm.
  - exact (nonchat_calls_shape self (model self) pkg 400%Z 0%Z ["```"] [] (reset s)).
  - exact (chat_calls_shape self (model self) pkg 400%Z 0%Z ["```"] [] (reset s)).
  - intros d s_stop out.
    exact (nonchat_calls_stopped self (model self) pkg 400%Z 0%Z ["```"] [] (reset s)
             d s_stop out).
  - intros d s_stop out.
    exact (chat_calls_stopped self (model self) pkg 400%Z 0%Z ["```"] [] (reset s)
             d s_stop out).
Qed.

(** X8: what the scratch attributes [query], [err] and [reason] held
    before the call has no influence on [generate_query]: from two states
    that agree on the service, the clock, the call log and the
    [completion] attribute it does the same. *)
Theorem generate_query_ignores_scratch (self : generator) (question : string)
    (s1 s2 : state) :
  world s1 = world s2 -> clock s1 = clock s2 -> calls s1 = calls s2 ->
  self_completion s1 = self_completion s2 ->
  generate_query self question s1 = generate_query self question s2.
Proof.
  intros Hw Hc Hl Hcompl.
  change (generate_query self question (reset s1)
          = generate_query self question (reset s2)).
  unfold reset. rewrite Hw, Hc, Hl, Hcompl. reflexivity.
Qed.

(** X9: the token count of a result depends on the template, the question
    and the model only: two calls that return, whatever the service did
    and whatever the outcome, report the same [tokens_used]. *)
Theorem tokens_used_independent (self : generator) (question : string)
    (s1 s2 : state) (r1 r2 : query_result) :
  value (generate_query self question s1) = inr r1 ->
  value (generate_query self question s2) = inr r2 ->
  tokens_used r1 = tokens_used r2.
Proof.
  intros H1 H2.
  destruct (prepare self question) as [e|[[l f] pkg]] eqn:Hprep.
  { rewrite (generate_query_unprepared self question s1 e Hprep) in H1. discriminate. }
  destruct (generate_query_prepared_run self question s1 l f pkg Hprep) as [_ Hr1].
  destruct (generate_query_prepared_run self question s2 l f pkg Hprep) as [_ Hr2].
  unfold silent in Hr1, Hr2. injection Hr1 as Hv1 _. injection Hr2 as Hv2 _.
  rewrite H1 in Hv1. rewrite H2 in Hv2.
  destruct (value (run_completion self f pkg (reset s1))); [discriminate|].
  destruct (value (run_completion self f pkg (reset s2))); [discriminate|].
  destruct (tokens_of_prompt self l) as [e|n]; [discriminate|].
  injection Hv1 as ->. injection Hv2 as ->. reflexivity.
Qed.

Lemma extract_query_total (text : string) :
  exists q, extract_query (PStr text) = inr q.
Proof.
  unfold extract_query, py_split, str_split, rbind.
  rewrite (list_getitem_last _ ""); [eauto | apply split_loop_last].
Qed.

(** What can go wrong in the extraction is the missing [split] method. *)
Lemma extract_query_error (v : pyval) (e : exn) :
  extract_query v = inl e ->
  exn_type e = AttributeError /\ forall text, v <> PStr text.
Proof.
  destruct v as [|text| | |].
  2: { intros H. destruct (extract_query_total text) as [q Hq].
       rewrite Hq in H. discriminate. }
  all: unfold extract_query; cbn [py_split rbind]; intros H; injection H as <-;
    split; [reflexivity | discriminate].
Qed.

Lemma prepared_keeps (self : generator) (question : string) (l : locals)
    (f : invoker) (pkg : payload) :
  prepare self question = inr (l, f, pkg) ->
  keeps_self (invocation self f pkg).
Proof.
  intros Hprep. pose proof (prepare_cases self question) as H.
  rewrite Hprep in H. destruct H as (chat_prompt & _ & _ & Hsel).
  exact (keeps_selected self l f pkg Hsel (model self) pkg 400%Z 0%Z ["```"] []).
Qed.

(** X10: when the invoker returns a text within the deadline and the
    token count of the assembled prompt succeeds, [generate_query] returns
    the segment extracted from the text as [query], the placeholder as
    [reason], no error and that count as [tokens_used], and keeps the text
    in the [completion] attribute. *)
Theorem generate_query_success (self : generator) (question : string) (s : state)
    (l : locals) (f : invoker) (pkg : payload) (n : Z) (text : string) :
  prepare self question = inr (l, f, pkg) ->
  tokens_of_prompt self l = inr n ->
  (invocation_time self f pkg (reset s) <= timeout self)%Z ->
  value (invocation self f pkg (reset s)) = inr (PStr text) ->
  exists r,
    value (generate_query self question s) = inr r
    /\ extract_query (PStr text) = inr (query r)
    /\ reason r = "-" /\ err r = "" /\ tokens_used r = n
    /\ self_completion (final (generate_query self question s)) = Some (PStr text).
Proof.
  intros Hprep Hn Hin Hval.
  destruct (generate_query_prepared_run self question s l f pkg Hprep) as [_ Hrun].
  destruct (extract_query_total text) as [q Hq].
  destruct (run_completion_returned self f pkg (reset s) (PStr text) q Hin Hval Hq)
    as (Hv & Hquery & Hreason & Herr & Hcompl & Hclock).
  destruct (prepared_keeps self question l f pkg Hprep (reset s)) as [(Ke & _) _].
  rewrite Hv, Hn in Hrun. unfold silent in Hrun. injection Hrun as Hvalue Hfinal.
  eexists. split; [exact Hvalue|]. cbn [query reason err tokens_used].
  rewrite Hfinal, Hquery, Hreason, Herr, Ke, Hcompl.
  cbn [reset self_err]. auto 7.
Qed.

(** X11: when an exception that is no [KeyError] comes out of the invoker
    within the deadline (the retried call failed) and the token count of
    the assembled prompt succeeds, [generate_query] returns an empty
    [query] and [reason], an [err] that names the class and the message of
    the exception, and that count as [tokens_used]. *)
Theorem generate_query_error (self : generator) (question : string) (s : state)
    (l : locals) (f : invoker) (pkg : payload) (n : Z) (e : exn) :
  prepare self question = inr (l, f, pkg) ->
  tokens_of_prompt self l = inr n ->
  (invocation_time self f pkg (reset s) <= timeout self)%Z ->
  value (invocation self f pkg (reset s)) = inl e ->
  is_FunctionTimedOut e = false -> is_KeyError e = false ->
  exists r,
    value (generate_query self question s) = inr r
    /\ err r = ("QUERY GENERATION ERROR: " ++ type_repr e ++ ", " ++ exn_str e)%string
    /\ query r = "" /\ reason r = "" /\ tokens_used r = n.
Proof.
  intros Hprep Hn Hin Hval Hfto Hkey.
  destruct (generate_query_prepared_run self question s l f pkg Hprep) as [_ Hrun].
  destruct (run_completion_raised self f pkg (reset s) e Hin (or_introl Hval) Hfto Hkey)
    as (Hv & Herr & Hquery & Hreason).
  rewrite Hv, Hn in Hrun. unfold silent in Hrun. injection Hrun as Hvalue _.
  eexists. split; [exact Hvalue|]. cbn [query reason err tokens_used].
  rewrite Herr, Hquery, Hreason. auto.
Qed.

(** X12: when the invoker returns within the deadline a value that is not
    a string (the service sent no text) and the token count of the
    assembled prompt succeeds, [generate_query] reports the missing
    [split] method in [err], with an empty [query] and [reason] and that
    count as [tokens_used]. *)
Theorem generate_query_no_text (self : generator) (question : string) (s : state)
    (l : locals) (f : invoker) (pkg : payload) (n : Z) (v : pyval) :
  prepare self question = inr (l, f, pkg) ->
  tokens_of_prompt self l = inr n ->
  (invocation_time self f pkg (reset s) <= timeout self)%Z ->
  value (invocation self f pkg (reset s)) = inr v ->
  (forall text, v <> PStr text) ->
  exists r e,
    value (generate_query self question s) = inr r
    /\ exn_type e = AttributeError
    /\ err r = generation_error e /\ query r = "" /\ reason r = ""
    /\ tokens_used r = n.
Proof.
  intros Hprep Hn Hin Hval Hv.
  destruct (generate_query_prepared_run self question s l f pkg Hprep) as [_ Hrun].
  destruct (extract_query v) as [e|q] eqn:Hx.
  2: { exfalso. destruct v as [|text| | |]; try discriminate Hx. now apply (Hv text). }
  destruct (extract_query_error v e Hx) as [Hty _].
  assert (Hfto : is_FunctionTimedOut e = false)
    by (unfold is_FunctionTimedOut; now rewrite Hty).
  assert (Hkey : is_KeyError e = false) by (unfold is_KeyError; now rewrite Hty).
  destruct (run_completion_raised self f pkg (reset s) e Hin
              (or_intror (ex_intro _ v (conj Hval Hx))) Hfto Hkey)
    as (Hvr & Herr & Hquery & Hreason).
  rewrite Hvr, Hn in Hrun. unfold silent in Hrun. injection Hrun as Hvalue _.
  exists (mkResult
            (self_query (final (run_completion self f pkg (reset s))))
            (self_reason (final (run_completion self f pkg (reset s))))
            (self_err (final (run_completion self f pkg (reset s))))
            (clock (final (run_completion self f pkg (reset s))) - clock s) n), e.
  split; [exact Hvalue|]. cbn [query reason err tokens_used]. auto 6.
Qed.

(** X13: whatever fails before the call (the template cannot be read, a
    delimiter is missing, the pruner or the formatting raises) is raised
    by [generate_query] as it is, with nothing printed, no call made and
    the service untouched; the scratch attributes are left empty. *)
Theorem assembly_failure_raised (self : generator) (question : string) (s : state)
    (e : exn) :
  prepare self question = inl e ->
  let r := generate_query self question s in
  value r = inl e /\ printed r = [] /\ calls (final r) = calls s
  /\ world (final r) = world s /\ clock (final r) = clock s
  /\ self_query (final r) = "" /\ self_err (final r) = ""
  /\ self_reason (final r) = "".
Proof.
  intros Hprep r. subst r.
  rewrite (generate_query_unprepared self question s e Hprep).
  cbn. auto 10.
Qed.

Lemma generate_query_timed_out (self : generator) (question : string) (s : state)
    (l : locals) (f : invoker) (pkg : payload) (n : Z) :
  prepare self question = inr (l, f, pkg) ->
  tokens_of_prompt self l = inr n ->
  (timeout self < invocation_time self f pkg (reset s))%Z ->
  exists r, value (generate_query self question s) = inr r
            /\ err r = "QUERY GENERATION TIMEOUT" /\ query r = "" /\ reason r = ""
            /\ tokens_used r = n.
Proof.
  intros Hprep Hn Hlate.
  destruct (generate_query_prepared_run self question s l f pkg Hprep) as [_ Hrun].
  destruct (run_completion_timed_out self f pkg (reset s)
              (prepared_keeps self question l f pkg Hprep) Hlate)
    as (Hv & He & Hq & Hr).
  rewrite Hv, Hn in Hrun. unfold silent in Hrun. injection Hrun as Hvalue _.
  eexists. split; [exact Hvalue|]. cbn [err query reason tokens_used].
  rewrite He, Hq, Hr. auto.
Qed.

(** X14: the pause before the retry counts towards the deadline.  In chat
    mode, when the first call raised a transient overload, the two calls
    and the five seconds between them take longer than [timeout], and the
    token count of the assembled prompt succeeds, [generate_query] reports
    the timeout, whatever the retried call answered. *)
Theorem retry_pause_counts (self : generator) (question : string) (s : state)
    (l : locals) (f : invoker) (pkg : payload) (n : Z) :
  let first := openai_create ChatCompletion (sent_request self pkg) (world s) in
  let second := openai_create ChatCompletion (sent_request self pkg) (snd first) in
  prepare self question = inr (l, f, pkg) ->
  model self <> "text-davinci-003" ->
  tokens_of_prompt self l = inr n ->
  overloaded (fst first) = true ->
  (timeout self < elapsed (fst first) + 5 + elapsed (fst second))%Z ->
  exists r, value (generate_query self question s) = inr r
            /\ err r = "QUERY GENERATION TIMEOUT" /\ query r = "" /\ reason r = ""
            /\ tokens_used r = n.
Proof.
  intros first second Hprep Hm Hn Hov Hlate. subst first second.
  apply (generate_query_timed_out self question s l f pkg n Hprep Hn).
  pose proof (prepare_cases self question) as H. rewrite Hprep in H.
  destruct H as (chat_prompt & _ & _ & Hsel).
  apply select_function_cases in Hsel.
  destruct Hsel as [(Hm' & _)|(_ & -> & _)]; [contradiction|].
  revert Hov Hlate. unfold sent_request, overloaded.
  apply String.eqb_neq in Hm. rewrite Hm.
  destruct (openai_create ChatCompletion _ (world s)) as [resp1 w1] eqn:Hcall1.
  cbn [fst snd].
  destruct (openai_create ChatCompletion _ w1) as [resp2 w2] eqn:Hcall2.
  cbn [fst]. destruct (outcome resp1) as [e1|] eqn:Hout1; [|discriminate].
  intros Hov Hlate.
  destruct (chat_retry self (model self) pkg 400%Z 0%Z ["```"] [] (reset s)
              resp1 resp2 w1 w2 e1 Hcall1 Hout1 Hov Hcall2) as (_ & _ & Hclock).
  unfold invocation_time. rewrite Hclock. cbn [reset clock]. lia.
Qed.

Ltac stopped_at :=
  repeat match goal with
         | |- context [(?a <? ?b)%Z] => destruct (Z.ltb_spec a b); try lia
         end.

(** The bounded chat invoker whose first call is under way at the
    deadline. *)
Lemma chat_stopped_in_first_call (self : generator) (model : string)
    (messages : payload) (max_tokens temperature : Z) (stop : list string)
    (logit_bias : list (Z * Z)) (s : state) (t : Z) :
  let req := mkRequest model (Some messages) None max_tokens temperature stop
                       logit_bias in
  let first := openai_create ChatCompletion req (world s) in
  let f := get_chat_completion self model messages max_tokens temperature stop
                               logit_bias in
  (0 <= t < elapsed (fst first))%Z ->
  (t < clock (final (f s)) - clock s)%Z ->
  calls (final (func_timeout t f s)) = calls s ++ [(ChatCompletion, req)]
  /\ world (final (func_timeout t f s)) = snd first.
Proof.
  intros req first f. subst first f. unfold func_timeout, get_chat_completion.
  cbv [create]. run_monad. fold req.
  destruct (openai_create ChatCompletion req (world s)) as [resp1 w1].
  cbn [fst snd]. run_monad. intros Ht. rewrite (Z.max_r 0 t) by lia.
  destruct (outcome resp1) as [e|completion].
  - destruct (is_overload e).
    + destruct (verbose self); run_monad;
        destruct (openai_create ChatCompletion req w1) as [resp2 w2]; run_monad;
        destruct (outcome resp2) as [e2|completion];
        try destruct (chat_content completion);
        cbn [final clock stopped]; cbv [stopped_then instant]; intros Hlate;
        stopped_at; cbn [final calls world]; auto.
    + destruct (is_Exception e); destruct (verbose self);
        cbn [final clock stopped]; cbv [stopped_then instant]; intros Hlate;
        stopped_at; cbn [final calls world]; auto.
  - destruct (chat_content completion) as [e|text] eqn:Hc; run_monad.
    + destruct (chat_content_error _ _ Hc) as [-> ->].
      destruct (verbose self);
        cbn [final clock stopped]; cbv [stopped_then instant]; intros Hlate;
        stopped_at; cbn [final calls world]; auto.
    + cbn [final clock stopped]; cbv [stopped_then instant]; intros Hlate;
        stopped_at; cbn [final calls world]; auto.
Qed.

Lemma nonchat_stopped_in_first_call (self : generator) (model : string)
    (prompt : payload) (max_tokens temperature : Z) (stop : list string)
    (logit_bias : list (Z * Z)) (s : state) (t : Z) :
  let req := mkRequest model None (Some prompt) max_tokens temperature stop
                       logit_bias in
  let first := openai_create Completion req (world s) in
  let f := get_nonchat_completion self model prompt max_tokens temperature stop
                                  logit_bias in
  (0 <= t < elapsed (fst first))%Z ->
  (t < clock (final (f s)) - clock s)%Z ->
  calls (final (func_timeout t f s)) = calls s ++ [(Completion, req)]
  /\ world (final (func_timeout t f s)) = snd first.
Proof.
  intros req first f. subst first f. unfold func_timeout, get_nonchat_completion.
  cbv [create]. run_monad. fold req.
  destruct (openai_create Completion req (world s)) as [resp1 w1].
  cbn [fst snd]. run_monad. intros Ht. rewrite (Z.max_r 0 t) by lia.
  destruct (outcome resp1) as [e|completion].
  - destruct (is_overload e).
    + destruct (verbose self); run_monad;
        destruct (openai_create ChatCompletion req w1) as [resp2 w2]; run_monad;
        destruct (outcome resp2) as [e2|completion];
        try destruct (completion_text completion);
        cbn [final clock stopped]; cbv [stopped_then instant]; intros Hlate;
        stopped_at; cbn [final calls world]; auto.
    + destruct (is_Exception e); destruct (verbose self);
        cbn [final clock stopped]; cbv [stopped_then instant]; intros Hlate;
        stopped_at; cbn [final calls world]; auto.
  - destruct (completion_text completion) as [e|text] eqn:Hc; run_monad.
    + destruct (completion_text_error _ _ Hc) as [-> ->].
      destruct (verbose self);
        cbn [final clock stopped]; cbv [stopped_then instant]; intros Hlate;
        stopped_at; cbn [final calls world]; auto.
    + cbn [final clock stopped]; cbv [stopped_then instant]; intros Hlate;
        stopped_at; cbn [final calls world]; auto.
Qed.

(** X17: the deadline ends the invocation.  When the invocation exceeds
    the deadline and its first call is still under way at the deadline,
    [generate_query] has made that one call and no other: a retry that
    the invoker would have made after an overload never takes place. *)
Theorem deadline_stops_worker (self : generator) (question : string) (s : state)
    (l : locals) (f : invoker) (pkg : payload) :
  let first :=
    openai_create (first_endpoint self) (sent_request self pkg) (world s) in
  prepare self question = inr (l, f, pkg) ->
  (timeout self < invocation_time self f pkg (reset s))%Z ->
  (0 <= timeout self < elapsed (fst first))%Z ->
  calls (final (generate_query self question s))
  = calls s ++ [(first_endpoint self, sent_request self pkg)]
  /\ world (final (generate_query self question s)) = snd first.
Proof.
  intros first Hprep Hlate Hfirst. subst first.
  destruct (generate_query_prepared_run self question s l f pkg Hprep) as [Hsel Hrun].
  unfold silent in Hrun. injection Hrun as _ ->.
  destruct (run_completion_service self f pkg (reset s)) as [-> ->].
  revert Hlate Hfirst. unfold invocation_time, invocation, first_endpoint, sent_request.
  apply select_function_cases in Hsel.
  destruct Hsel as [(Hm & -> & _)|(Hm & -> & _)];
    [apply String.eqb_eq in Hm | apply String.eqb_neq in Hm]; rewrite Hm;
    intros Hlate Hfirst.
  - exact (nonchat_stopped_in_first_call self (model self) pkg 400%Z 0%Z ["```"] []
             (reset s) (timeout self) Hfirst Hlate).
  - exact (chat_stopped_in_first_call self (model self) pkg 400%Z 0%Z ["```"] []
             (reset s) (timeout self) Hfirst Hlate).
Qed.

End Paths.

(** ** The token count in chat mode *)

Section Counting.
Context `{E : Env}.

Lemma sum_values_app (f : string -> Z) (ms1 ms2 : list message) :
  sum_values f (ms1 ++ ms2) = (sum_values f ms1 + sum_values f ms2)%Z.
Proof.
  unfold sum_values. rewrite concat_app, !map_app. apply sum_app.
Qed.

Lemma sum_perm (l1 l2 : list Z) :
  Permutation l1 l2 -> fold_right Z.add 0%Z l1 = fold_right Z.add 0%Z l2.
Proof. induction 1; simpl; lia. Qed.

Lemma concat_perm {A : Type} (l1 l2 : list (list A)) :
  Permutation l1 l2 -> Permutation (concat l1) (concat l2).
Proof.
  induction 1 as [|x l1 l2 _ IH|x y l|l1 l2 l3 _ IH1 _ IH2]; cbn [concat].
  - constructor.
  - now apply Permutation_app_head.
  - rewrite !app_assoc. apply Permutation_app_tail, Permutation_app_comm.
  - now transitivity (concat l2).
Qed.

Lemma values_perm (ms1 ms2 : list message) :
  Permutation ms1 ms2 ->
  Permutation (map snd (concat ms1)) (map snd (concat ms2)).
Proof. intros H. now apply Permutation_map, concat_perm. Qed.

Lemma sum_values_nonneg (encode : string -> result (list Z)) (ms : list message) :
  (0 <= sum_values (token_length encode) ms)%Z.
Proof.
  unfold sum_values.
  induction (map snd (concat ms)) as [|v vs IH]; cbn [map fold_right]; [lia|].
  assert (0 <= token_length encode v)%Z; [|lia].
  unfold token_length, len. destruct (encode v); lia.
Qed.

(** X16: in chat mode the token count is a sum over the messages: the
    count of two lists put together is the sum of their counts, the order
    of the messages does not matter, and a count is never negative (it is
    0 for no message). *)
Theorem count_tokens_additive (model prompt : string) (ms1 ms2 : list message)
    (n1 n2 : Z) :
  (model =? "text-davinci-003") = false ->
  count_tokens model ms1 prompt = inr n1 ->
  count_tokens model ms2 prompt = inr n2 ->
  count_tokens model (ms1 ++ ms2) prompt = inr (n1 + n2)%Z
  /\ (forall ms, Permutation ms1 ms -> count_tokens model ms prompt = inr n1)
  /\ (0 <= n1)%Z
  /\ count_tokens model [] prompt = inr 0%Z.
Proof.
  intros Hm H1 H2.
  apply (count_tokens_chat model ms1 prompt n1 Hm) in H1.
  apply (count_tokens_chat model ms2 prompt n2 Hm) in H2.
  destruct H1 as (encode & Henc & Hall1 & ->).
  destruct H2 as (encode' & Henc' & Hall2 & ->).
  rewrite Henc in Henc'. injection Henc' as <-.
  repeat apply conj.
  - apply (count_tokens_chat _ _ _ _ Hm). exists encode.
    split; [exact Henc|]. split; [|now rewrite sum_values_app].
    rewrite concat_app, map_app. apply Forall_app. auto.
  - intros ms Hperm. apply (count_tokens_chat _ _ _ _ Hm). exists encode.
    split; [exact Henc|]. pose proof (values_perm ms1 ms Hperm) as Hvalues. split.
    + exact (Permutation_Forall Hvalues Hall1).
    + unfold sum_values. apply sum_perm. now apply Permutation_map.
  - apply sum_values_nonneg.
  - apply (count_tokens_chat _ _ _ _ Hm). exists encode.
    split; [exact Henc|]. split; [constructor | reflexivity].
Qed.

End Counting.

(** ** The further properties on concrete runs *)

Lemma extract_query_after_marker_witness :
  extract_query (PStr ("one ```sql SELECT 0; two " ++ "```sql" ++ " SELECT 1;"))
  = inr " SELECT 1;".
Proof.
  apply (extract_query_after_marker "one ```sql SELECT 0; two " " SELECT 1;").
  apply str_find_None. reflexivity.
Defined.

Lemma assemble_prompt_sections_witness :
  @assemble_prompt healthy_chat_env chat_generator sample_question
    ("Write a SQL query." ++ "### Input:"
     ++ "Question: {user_question} Schema: {table_metadata_string}"
     ++ "### Response:" ++ "Here is the query: ```sql")
  = inr (mkLocals None
           (Some [role_message "system" "Write a SQL query.";
                  role_message "user"
                    "Question: how many users? Schema: table users(id, name)";
                  role_message "assistant" "Here is the query: ```sql"])).
Proof.
  apply (@assemble_prompt_sections healthy_chat_env chat_generator sample_question
           "Write a SQL query."
           "Question: {user_question} Schema: {table_metadata_string}"
           "Here is the query: ```sql" "table users(id, name)").
  - discriminate.
  - apply str_find_None. reflexivity.
  - apply str_find_None. reflexivity.
  - apply str_find_None. reflexivity.
  - apply str_find_None. reflexivity.
  - reflexivity.
  - reflexivity.
Defined.

Lemma unreadable_completion_swallowed_witness :
  value (@get_chat_completion no_choices_env chat_generator "gpt-4-0613"
           sample_messages 400 0 ["```"] [] (fresh no_choices_env 0%nat))
  = inr (PStr "").
Proof.
  apply (proj1 (@unreadable_completion_swallowed no_choices_env chat_generator
                  "gpt-4-0613" sample_messages 400 0 ["```"] []
                  (fresh no_choices_env 0%nat))
           (PDict [("choices", PList [])]) index_error);
    reflexivity.
Defined.

Lemma chat_retry_same_text_witness :
  value (@get_chat_completion overloaded_chat_env chat_generator "gpt-4-0613"
           sample_messages 400 0 ["```"] [] (fresh overloaded_chat_env 0%nat))
  = inr (PStr sample_sql).
Proof.
  apply (proj1 (@chat_retry_same_text overloaded_chat_env chat_generator "gpt-4-0613"
                  sample_messages 400 0 ["```"] [] (fresh overloaded_chat_env 0%nat)
                  (mkExn RateLimitError "Rate limit reached")
                  (chat_reply sample_sql) (PStr sample_sql)
                  eq_refl eq_refl eq_refl eq_refl)).
Defined.

Lemma generate_query_calls_witness :
  exists more,
    calls (final (@generate_query overloaded_chat_env chat_generator sample_question
                    (fresh overloaded_chat_env 0%nat)))
    = [] ++ (ChatCompletion, sent_request chat_generator sample_messages) :: more
    /\ List.length more <= 1
    /\ forall c, In c more -> snd c = sent_request chat_generator sample_messages.
Proof.
  eapply (@generate_query_calls overloaded_chat_env chat_generator sample_question
            (fresh overloaded_chat_env 0%nat)).
  reflexivity.
Defined.

Lemma generate_query_ignores_scratch_witness :
  @generate_query healthy_chat_env chat_generator sample_question
    (stale healthy_chat_env 0%nat)
  = @generate_query healthy_chat_env chat_generator sample_question
      (fresh healthy_chat_env 0%nat).
Proof.
  apply (@generate_query_ignores_scratch healthy_chat_env); reflexivity.
Defined.

Lemma tokens_used_independent_witness :
  exists r1 r2,
    value (@generate_query failing_retry_env chat_generator sample_question
             (fresh failing_retry_env 0%nat)) = inr r1
    /\ value (@generate_query failing_retry_env chat_generator sample_question
                (fresh failing_retry_env 1%nat)) = inr r2
    /\ err r1 <> err r2
    /\ tokens_used r1 = tokens_used r2.
Proof.
  do 2 eexists. split; [vm_compute; reflexivity|].
  split; [vm_compute; reflexivity|]. split; [discriminate|].
  apply (@tokens_used_independent failing_retry_env chat_generator sample_question
           (fresh failing_retry_env 0%nat) (fresh failing_retry_env 1%nat));
    vm_compute; reflexivity.
Defined.

Lemma generate_query_success_witness :
  exists r,
    value (@generate_query healthy_chat_env chat_generator sample_question
             (fresh healthy_chat_env 0%nat)) = inr r
    /\ extract_query (PStr sample_sql) = inr (query r)
    /\ reason r = "-" /\ err r = "" /\ tokens_used r = 117%Z
    /\ self_completion
         (final (@generate_query healthy_chat_env chat_generator sample_question
                   (fresh healthy_chat_env 0%nat)))
       = Some (PStr sample_sql).
Proof.
  eapply (@generate_query_success healthy_chat_env chat_generator sample_question
            (fresh healthy_chat_env 0%nat)).
  - reflexivity.
  - reflexivity.
  - vm_compute. discriminate.
  - reflexivity.
Defined.

Lemma generate_query_error_witness :
  exists r,
    value (@generate_query failing_retry_env chat_generator sample_question
             (fresh failing_retry_env 0%nat)) = inr r
    /\ err r
       = "QUERY GENERATION ERROR: <class 'openai.error.APIError'>, internal server error"
    /\ query r = "" /\ reason r = "" /\ tokens_used r = 117%Z.
Proof.
  eapply (@generate_query_error failing_retry_env chat_generator sample_question
            (fresh failing_retry_env 0%nat) _ _ _ _ api_error).
  - reflexivity.
  - reflexivity.
  - vm_compute. discriminate.
  - reflexivity.
  - reflexivity.
  - reflexivity.
Defined.

Lemma generate_query_no_text_witness :
  exists r e,
    value (@generate_query null_content_env chat_generator sample_question
             (fresh null_content_env 0%nat)) = inr r
    /\ exn_type e = AttributeError
    /\ err r = generation_error e /\ query r = "" /\ reason r = ""
    /\ tokens_used r = 117%Z.
Proof.
  eapply (@generate_query_no_text null_content_env chat_generator sample_question
            (fresh null_content_env 0%nat) _ _ _ _ PNone).
  - reflexivity.
  - reflexivity.
  - vm_compute. discriminate.
  - reflexivity.
  - discriminate.
Defined.

Lemma assembly_failure_raised_witness :
  let r := @generate_query broken_template_env chat_generator sample_question
             (fresh broken_template_env 0%nat) in
  value r = inl index_error /\ printed r = [] /\ calls (final r) = []
  /\ world (final r) = 0%nat /\ clock (final r) = 0%Z
  /\ self_query (final r) = "" /\ self_err (final r) = ""
  /\ self_reason (final r) = "".
Proof.
  apply (@assembly_failure_raised broken_template_env chat_generator sample_question
           (fresh broken_template_env 0%nat) index_error).
  reflexivity.
Defined.

Lemma retry_pause_counts_witness :
  exists r,
    value (@generate_query overloaded_chat_env impatient_generator sample_question
             (fresh overloaded_chat_env 0%nat)) = inr r
    /\ err r = "QUERY GENERATION TIMEOUT" /\ query r = "" /\ reason r = ""
    /\ tokens_used r = 117%Z.
Proof.
  eapply (@retry_pause_counts overloaded_chat_env impatient_generator sample_question
            (fresh overloaded_chat_env 0%nat)).
  - reflexivity.
  - discriminate.
  - reflexivity.
  - reflexivity.
  - vm_compute. reflexivity.
Defined.

Lemma count_tokens_additive_witness :
  @count_tokens healthy_chat_env "gpt-4-0613"
    ([role_message "system" "Write a SQL query."]
     ++ [role_message "user" "how many users?"]) ""
  = inr (24 + 19)%Z.
Proof.
  apply (proj1 (@count_tokens_additive healthy_chat_env "gpt-4-0613" ""
                  [role_message "system" "Write a SQL query."]
                  [role_message "user" "how many users?"] 24 19
                  eq_refl eq_refl eq_refl)).
Defined.

Lemma deadline_stops_worker_witness :
  calls (final (@generate_query congested_env chat_generator sample_question
                  (fresh congested_env 0%nat)))
  = [] ++ [(first_endpoint chat_generator, sent_request chat_generator sample_messages)]
  /\ world (final (@generate_query congested_env chat_generator sample_question
                     (fresh congested_env 0%nat)))
     = 1%nat.
Proof.
  apply (@deadline_stops_worker congested_env chat_generator sample_question
           (fresh congested_env 0%nat)
           (mkLocals None
              (Some [role_message "system" "Write a SQL query.";
                     role_message "user"
                       "Question: how many users? Schema: table users(id, name)";
                     role_message "assistant" "Here is the query: ```sql"]))
           (@get_chat_completion congested_env chat_generator) sample_messages).
  - reflexivity.
  - vm_compute. reflexivity.
  - vm_compute. split; [discriminate | reflexivity].
Defined.
